(** * NetBuilder: the middleware resolver

    A shallow embedding of [src/Internal/MiddlewareResolver.ts] and
    [src/Util/rustResult.ts], with the properties of the middleware
    engine stated over it.

    Layout: the data model ([Value], [Result], [NetBuilderMiddleware]),
    the stage registry ([getMiddlewares]), the stage channel
    ([createChannel], [close]), the chain executor ([checkMiddlewares]),
    the two call adapters ([CreateReceiver], [CreateSender]) and the
    [rustResult] helper; the theorems follow the definitions.

    What the embedding takes from the runtime:
    - a rest parameter is a fresh array, so the [shift] inside
      [getPlayerFromArgs(...args)] does not reach the caller's [args];
    - [Vec.dedupBy] is the single pass of Rust's [dedup_by];
    - a thread that runs into [coroutine.yield()] and that nothing holds
      is not resumed;
    - time is counted in whole units, transforms and the real callback
      are functions, and the body of a stage is the list of what it
      does, which may depend on the player and the arguments it gets;
    - for the builder ([src/Builders/NetBuilder.ts]): tables are shared
      by reference and live in a store, a write to a table that
      [table.freeze] was applied to raises, and [ipairs] counts from 1. *)

From Stdlib Require Import ZArith Lia.
From stdpp Require Import base option list strings gmap pretty.

Open Scope string_scope.
Open Scope list_scope.

(** ** Data model *)

(** The [unknown] values that travel through a remote call.  Only the
    cases the resolver can tell apart are kept. *)
Inductive Value : Type :=
  | VUndefined
  | VNumber (n : Z)
  | VString (s : string)
  | VPlayer (userId : nat).

(** [Result<T, E>] of rust-classes, with the methods the resolver calls. *)
Module Result.

Inductive t (T E : Type) : Type :=
  | Ok (v : T)
  | Err (e : E).
Arguments Ok {T E} v.
Arguments Err {T E} e.

Definition isOk {T E} (r : t T E) : bool :=
  match r with Ok _ => true | Err _ => false end.

Definition isErr {T E} (r : t T E) : bool :=
  match r with Ok _ => false | Err _ => true end.

(** [r.and(other)]: [other] when [r] is Ok, the error of [r] otherwise. *)
Definition and {T U E} (r : t T E) (other : t U E) : t U E :=
  match r with Ok _ => other | Err e => Err e end.

(** [r.andWith(f)]: [f] applied to the payload when [r] is Ok. *)
Definition andWith {T U E} (r : t T E) (f : T -> t U E) : t U E :=
  match r with Ok v => f v | Err e => Err e end.

End Result.

Abbreviation Ok := Result.Ok.
Abbreviation Err := Result.Err.

(** A return-value transform, [(value: unknown) => unknown]. *)
Definition ReturnFn : Type := Value -> Value.

(** What [processNext] packs: the new arguments (absent when the stage
    supplies none, hence the [??] in the executor) and the transform. *)
Definition Accepted : Type := option (list Value) * ReturnFn.

Definition ThreadResult : Type := Result.t Accepted string.

(** The direction of a chain, ["Send" | "Recv"]. *)
Inductive Kind : Type := Send | Recv.

(** What the body of a stage does once it is spawned, in program order.
    [OpProcessNext] and [OpDrop] are calls to the two continuations the
    channel hands to the stage, [OpWait] suspends the body for a number
    of time units and [OpEffect] is any other observable action. *)
Inductive StageOp : Type :=
  | OpProcessNext (args : option (list Value)) (returnFn : ReturnFn)
  | OpDrop (reason : string)
  | OpWait (d : nat)
  | OpEffect (tag : nat).

(** A [MiddlewareCallback]: [(definition, processNext, drop) =>
    (player, ...args) => void].  The definition is represented by its
    id, and the body by the operations it performs for that player and
    those arguments. *)
Definition MiddlewareCallback : Type :=
  string -> Value -> list Value -> list StageOp.

Record NetBuilderMiddleware : Type := {
  Label : string;
  MSend : MiddlewareCallback;
  MRecv : MiddlewareCallback
}.

(** [m[kind]] *)
Definition callbackOf (m : NetBuilderMiddleware) (kind : Kind) : MiddlewareCallback :=
  match kind with Send => MSend m | Recv => MRecv m end.

(** [RemoteDefinitionMembers], reduced to what the resolver reads:
    the id, the bound middlewares and the global list of the namespace
    ([definition.Namespace[GlobalMiddleware]]). *)
Record RemoteDefinitionMembers : Type := {
  Id : string;
  Info : string;
  Middlewares : list NetBuilderMiddleware;
  GlobalMiddleware : list NetBuilderMiddleware
}.

(** Modelled from the spec: [Util/definitionInfo] is not among the
    sources; it renders the human-readable diagnostic label of a target,
    carried here by the field [Info]. *)
Definition definitionInfo (definition : RemoteDefinitionMembers) : string :=
  Info definition.

(** What [RunService] and [Players] answer on the running side. *)
Record RunService : Type := {
  IsServer : bool;
  IsClient : bool;
  LocalPlayer : Value
}.

(** ** Stage registry *)

(** [Vec.dedupBy] of rust-classes, the port of Rust's [Vec::dedup_by]:
    one pass that keeps an element unless [isDup] holds between it and
    the last element kept. *)
Fixpoint dedupBy_from {A} (isDup : A -> A -> bool) (kept : A) (l : list A) : list A :=
  match l with
  | [] => []
  | x :: rest =>
      if isDup x kept then dedupBy_from isDup kept rest
      else x :: dedupBy_from isDup x rest
  end.

Definition dedupBy {A} (isDup : A -> A -> bool) (l : list A) : list A :=
  match l with
  | [] => []
  | x :: rest => x :: dedupBy_from isDup x rest
  end.

(** [({ Label: l1 }, { Label: l2 }) => l1 === l2 && l1 !== "Unknown"] *)
Definition sameLabel (m1 m2 : NetBuilderMiddleware) : bool :=
  bool_decide (Label m1 = Label m2) && negb (bool_decide (Label m1 = "Unknown")).

Definition getMiddlewares (definition : RemoteDefinitionMembers) : list NetBuilderMiddleware :=
  dedupBy sameLabel (Middlewares definition ++ GlobalMiddleware definition).

(** ** Stage channel *)

Definition timeout : nat := 60.

(** [`middleware processing has timed out. (${MiddlewareResolver.timeout}s)`] *)
Definition timeoutMsg : string :=
  "middleware processing has timed out. (" +:+ pretty timeout +:+ "s)".

(** What [createChannel] allocates for one stage invocation, seen
    through what [close] does to it: the guard [isDone], the result
    parked in the holder coroutine [co] by [task.spawn(co, result)], and
    how often each release ran: the deferred [coroutine.close] of [ch],
    [timeout.cancel()] and [bindable.Fire()], which wakes the waiter. *)
Record Channel : Type := {
  isDone : bool;
  co : option ThreadResult;
  coSpawned : nat;
  chClosed : nat;
  timeoutCancelled : nat;
  bindableFired : nat
}.

Definition openChannel : Channel :=
  {| isDone := false; co := None; coSpawned := 0; chClosed := 0;
     timeoutCancelled := 0; bindableFired := 0 |}.

(** [close(result)].  The boolean tells whether the calling thread ran
    into the [coroutine.yield()] that ends the guarded branch. *)
Definition close (result : ThreadResult) (c : Channel) : Channel * bool :=
  if isDone c then (c, false)
  else ({| isDone := true;
           co := Some result;
           coSpawned := S (coSpawned c);
           chClosed := S (chClosed c);
           timeoutCancelled := S (timeoutCancelled c);
           bindableFired := S (bindableFired c) |}, true).

Definition processNext (args : option (list Value)) (returnFn : ReturnFn) :
    Channel -> Channel * bool :=
  close (Ok (args, returnFn)).

Definition drop (reason : string) : Channel -> Channel * bool :=
  close (Err reason).

(** The reason the timer hands to [drop]:
    [`${definitionInfo(definition)} ${msg}`]. *)
Definition timeoutReason (definition : RemoteDefinitionMembers) : string :=
  definitionInfo definition +:+ " " +:+ timeoutMsg.

(** [timeout.then((msg) => drop(...))] *)
Definition onTimeout (definition : RemoteDefinitionMembers) : Channel -> Channel * bool :=
  drop (timeoutReason definition).

(** One stage invocation in progress: the channel, the time since
    [Promise.delay] was started, when the channel closed, the operations
    of the body that have run, and whether the thread of the body is
    parked in the yield of [close]. *)
Record Invocation : Type := {
  chan : Channel;
  clock : nat;
  settledAt : option nat;
  executed : list StageOp;
  suspended : bool
}.

Definition newInvocation : Invocation :=
  {| chan := openChannel; clock := 0; settledAt := None; executed := [];
     suspended := false |}.

(** [d] time units pass.  The timer elapses when the clock reaches
    [timeout] with the channel still open; a timer that was cancelled by
    [close] never elapses.  The timer was started before the body, so a
    body that wakes at the very instant [timeout] runs after it. *)
Definition elapse (definition : RemoteDefinitionMembers) (d : nat) (s : Invocation) :
    Invocation :=
  let t := clock s + d in
  if negb (isDone (chan s)) && (timeout <=? t)%nat then
    {| chan := fst (onTimeout definition (chan s)); clock := t;
       settledAt := Some timeout; executed := executed s;
       suspended := suspended s |}
  else
    {| chan := chan s; clock := t; settledAt := settledAt s;
       executed := executed s; suspended := suspended s |}.

(** A call of one of the two continuations from the body of the stage. *)
Definition callContinuation (op : StageOp) (k : Channel -> Channel * bool)
    (s : Invocation) : Invocation :=
  let '(c, yielded) := k (chan s) in
  {| chan := c; clock := clock s;
     settledAt := if yielded then Some (clock s) else settledAt s;
     executed := executed s ++ [op];
     suspended := yielded |}.

Definition logOp (op : StageOp) (s : Invocation) : Invocation :=
  {| chan := chan s; clock := clock s; settledAt := settledAt s;
     executed := executed s ++ [op]; suspended := suspended s |}.

(** The thread that [task.spawn(fn, player, ...)] starts.  Nothing
    resumes a thread parked in the yield of [close], so the run ends
    there. *)
Fixpoint runBody (definition : RemoteDefinitionMembers) (ops : list StageOp)
    (s : Invocation) : Invocation :=
  match ops with
  | [] => s
  | op :: rest =>
      match op with
      | OpProcessNext args returnFn =>
          let s' := callContinuation op (processNext args returnFn) s in
          if suspended s' then s' else runBody definition rest s'
      | OpDrop reason =>
          let s' := callContinuation op (drop reason) s in
          if suspended s' then s' else runBody definition rest s'
      | OpWait d => runBody definition rest (elapse definition d (logOp op s))
      | OpEffect _ => runBody definition rest (logOp op s)
      end
  end.

(** [createChannel(definition, channel)] followed by the spawn of the
    body for [player] and [args]. *)
Definition createChannel (definition : RemoteDefinitionMembers)
    (channel : MiddlewareCallback) (player : Value) (args : list Value) : Invocation :=
  runBody definition (channel (Id definition) player args) newInvocation.

(** The body is over or parked; if the channel is still open, only the
    timer is left to close it. *)
Definition runTimer (definition : RemoteDefinitionMembers) (s : Invocation) : Invocation :=
  if isDone (chan s) then s else elapse definition (timeout - clock s) s.

(** What the waiter resolves with, [coroutine.resume(co)[1]]: the
    result parked by the call that closed the channel, or the rejection
    of the timer when the body never closed it. *)
Definition awaitResult (definition : RemoteDefinitionMembers) (s : Invocation) :
    ThreadResult :=
  match co (chan s) with
  | Some result => result
  | None => Err (timeoutReason definition)
  end.

(** The three ways a channel can be closed. *)
Inductive Trigger : Type :=
  | ByProcessNext (args : option (list Value)) (returnFn : ReturnFn)
  | ByDrop (reason : string)
  | ByTimeout.

Definition fire (definition : RemoteDefinitionMembers) (t : Trigger) :
    Channel -> Channel * bool :=
  match t with
  | ByProcessNext args returnFn => processNext args returnFn
  | ByDrop reason => drop reason
  | ByTimeout => onTimeout definition
  end.

(** The result a trigger passes to [close]. *)
Definition resultOf (definition : RemoteDefinitionMembers) (t : Trigger) : ThreadResult :=
  match t with
  | ByProcessNext args returnFn => Ok (args, returnFn)
  | ByDrop reason => Err reason
  | ByTimeout => Err (timeoutReason definition)
  end.

Definition fireAll (definition : RemoteDefinitionMembers) (ts : list Trigger)
    (c : Channel) : Channel :=
  fold_left (fun c t => fst (fire definition t c)) ts c.

Definition isContinuationCall (op : StageOp) : bool :=
  match op with
  | OpProcessNext _ _ | OpDrop _ => true
  | OpWait _ | OpEffect _ => false
  end.

(** One stage of a chain, from [createChannel] to the result the
    [expect()] of the loop body waits for. *)
Definition invokeStage (definition : RemoteDefinitionMembers) (kind : Kind)
    (player : Value) (m : NetBuilderMiddleware) (args : list Value) : ThreadResult :=
  awaitResult definition (createChannel definition (callbackOf m kind) player args).

(** ** Chain executor *)

(** What a call leaves behind: the stages it started and the calls of
    the real callback. *)
Inductive Event : Type :=
  | EvStage (m : NetBuilderMiddleware) (kind : Kind) (player : Value) (args : list Value)
  | EvCallback (args : list Value).

(** Computations that log events and may throw. *)
Definition M (A : Type) : Type := option A * list Event.

Definition ret {A} (a : A) : M A := (Some a, []).

Definition bind {A B} (m : M A) (f : A -> M B) : M B :=
  match m with
  | (Some a, l) => let '(b, l') := f a in (b, l ++ l')
  | (None, l) => (None, l)
  end.

Definition tell (e : Event) : M unit := (Some tt, [e]).

Definition throw {A} : M A := (None, []).

Notation "x <- m ;; k" := (bind m (fun x => k))
  (at level 100, m at next level, right associativity).

Record MiddlewareEntry : Type := {
  CurrentParameters : list Value;
  ReturnCallbacks : list ReturnFn;
  Result : option ThreadResult
}.

(** [(args as [Player]).shift()!] on a copy of the arguments. *)
Definition getPlayerFromArgs (rs : RunService) (args : list Value) : Value :=
  if IsClient rs then LocalPlayer rs else hd VUndefined args.

Definition resolveParameters (rs : RunService) (args : list Value) : list Value :=
  if IsServer rs then tl args else args.

(** [!state.Result || state.Result.isOk()] *)
Definition mayContinue (state : MiddlewareEntry) : bool :=
  match Result state with
  | None => true
  | Some r => Result.isOk r
  end.

(** [state.Result?.isErr()] *)
Definition hasFailed (state : MiddlewareEntry) : bool :=
  match Result state with
  | None => false
  | Some r => Result.isErr r
  end.

(** The second [then] of the loop body: [andWith] runs the closure on
    an accepted result only, and the closure returns [result] itself. *)
Definition onSettled (state : MiddlewareEntry) (result : ThreadResult) : MiddlewareEntry :=
  if mayContinue state then
    match result with
    | Ok (newParams, returnFn) =>
        {| CurrentParameters := default [] newParams;
           ReturnCallbacks := ReturnCallbacks state ++ [returnFn];
           Result := Some (Result.andWith result (fun _ => result)) |}
    | Err _ =>
        {| CurrentParameters := CurrentParameters state;
           ReturnCallbacks := ReturnCallbacks state;
           Result := Some (Result.andWith result (fun _ => result)) |}
    end
  else state.

(** [for (const m of middlewares) { ... if (state.Result?.isErr()) break; }] *)
Fixpoint forMiddlewares (definition : RemoteDefinitionMembers) (kind : Kind)
    (player : Value) (middlewares : list NetBuilderMiddleware)
    (state : MiddlewareEntry) : M MiddlewareEntry :=
  match middlewares with
  | [] => ret state
  | m :: rest =>
      _ <- tell (EvStage m kind player (CurrentParameters state)) ;;
      let result := invokeStage definition kind player m (CurrentParameters state) in
      let state' := onSettled state result in
      if hasFailed state' then ret state'
      else forMiddlewares definition kind player rest state'
  end.

Definition checkMiddlewares (rs : RunService) (definition : RemoteDefinitionMembers)
    (kind : Kind) (args : list Value) : M MiddlewareEntry :=
  let player := getPlayerFromArgs rs args in
  let middlewares := getMiddlewares definition in
  forMiddlewares definition kind player middlewares
    {| CurrentParameters := resolveParameters rs args;
       ReturnCallbacks := [];
       Result := None |}.

(** ** Call adapters *)

(** A field of the object a receiver returns. *)
Inductive Field : Type :=
  | FString (s : string)
  | FValue (v : Value).

#[global] Instance Value_eq_dec : EqDecision Value.
Proof. solve_decision. Defined.

#[global] Instance Field_eq_dec : EqDecision Field.
Proof. solve_decision. Defined.

(** [NetBuilderResult], an object with string keys. *)
Abbreviation NetBuilderResult := (gmap string Field).

(** [ReturnCallbacks.reduce((acc, fn) => fn(acc), init)] *)
Definition reduce (fns : list ReturnFn) (init : Value) : Value :=
  fold_left (fun acc fn => fn acc) fns init.

(** [RunService.IsServer() ? callback(player, ...args) : callback(...args)] *)
Definition executeFn (rs : RunService) (callback : list Value -> Value)
    (player : Value) (args : list Value) : M Value :=
  let actual := if IsServer rs then player :: args else args in
  _ <- tell (EvCallback actual) ;;
  ret (callback actual).

Definition CreateReceiver (rs : RunService) (definition : RemoteDefinitionMembers)
    (callback : list Value -> Value) (args : list Value) : M NetBuilderResult :=
  let player := getPlayerFromArgs rs args in
  let middlewares := getMiddlewares definition in
  if (0 <? length middlewares)%nat then
    state <- checkMiddlewares rs definition Recv args ;;
    match Result state with
    | None => throw
    | Some (Err message) =>
        ret (<["Result" := FString "ERR"]> (<["Message" := FString message]> ∅))
    | Some (Ok _) =>
        v <- executeFn rs callback player (CurrentParameters state) ;;
        ret (<["Result" := FString "OK"]>
               (<["Value" := FValue (reduce (ReturnCallbacks state) v)]> ∅))
    end
  else
    v <- executeFn rs callback player args ;;
    ret (<["Result" := FString "OK"]> (<["Value" := FValue v]> ∅)).

Definition CreateSender (rs : RunService) (definition : RemoteDefinitionMembers)
    (args : list Value) : M (Result.t (list Value * ReturnFn) string) :=
  let middlewares := getMiddlewares definition in
  if (0 <? length middlewares)%nat then
    state <- checkMiddlewares rs definition Send args ;;
    match Result state with
    | None => throw
    | Some result =>
        ret (Result.and result
               (Ok (CurrentParameters state,
                    fun r => reduce (ReturnCallbacks state) r)))
    end
  else ret (Ok (args, fun r => r)).

(** [v.Type === "Ok" ? Result.ok(v.Value) : Result.err(v.Message)] *)
Definition rustResult (v : NetBuilderResult) : Result.t (option Field) (option Field) :=
  if bool_decide (v !! "Type" = Some (FString "Ok")) then Ok (v !! "Value")
  else Err (v !! "Message").

(** ** Reference notions used by the statements *)

(** No two neighbours of the resolved chain share a label other than
    "Unknown". *)
Fixpoint neighboursDiffer (kept : NetBuilderMiddleware) (l : list NetBuilderMiddleware) : Prop :=
  match l with
  | [] => True
  | x :: rest => sameLabel x kept = false /\ neighboursDiffer x rest
  end.

(** The registry as the specification words it: every later stage
    whose label was already seen is dropped, wherever it stands, unless
    the label is "Unknown". *)
Fixpoint firstOccurrences (seen : list string) (l : list NetBuilderMiddleware) :
    list NetBuilderMiddleware :=
  match l with
  | [] => []
  | m :: rest =>
      if bool_decide (Label m ∈ seen) && negb (bool_decide (Label m = "Unknown"))
      then firstOccurrences seen rest
      else m :: firstOccurrences (Label m :: seen) rest
  end.

(** [stageN(...stage1(v))]: the transforms listed in acceptance order,
    the last of them applied outermost. *)
Definition nested (fns : list ReturnFn) (v : Value) : Value :=
  fold_right (fun fn acc => fn acc) v (rev fns).

(** A chain whose stages all accept: the transforms they supply, in
    order, and the arguments the last one leaves; [None] as soon as one
    stage rejects. *)
Fixpoint allAccept (definition : RemoteDefinitionMembers) (kind : Kind)
    (player : Value) (middlewares : list NetBuilderMiddleware)
    (args : list Value) : option (list ReturnFn * list Value) :=
  match middlewares with
  | [] => Some ([], args)
  | m :: rest =>
      match invokeStage definition kind player m args with
      | Ok (newParams, returnFn) =>
          match allAccept definition kind player rest (default [] newParams) with
          | Some (fns, final) => Some (returnFn :: fns, final)
          | None => None
          end
      | Err _ => None
      end
  end.

(** The states a stage invocation can be in: still open, with nothing
    released and the timer running, or closed once. *)
Definition invocationOk (s : Invocation) : Prop :=
  (chan s = openChannel /\ clock s < timeout /\ settledAt s = None /\ suspended s = false)
  \/ (isDone (chan s) = true /\ is_Some (co (chan s)) /\ is_Some (settledAt s)
      /\ coSpawned (chan s) = 1 /\ chClosed (chan s) = 1
      /\ timeoutCancelled (chan s) = 1 /\ bindableFired (chan s) = 1).

(** The states of an invocation whose body never calls a continuation:
    open with the timer running, or closed by the timer at [timeout]. *)
Definition timerOnly (definition : RemoteDefinitionMembers) (s : Invocation) : Prop :=
  (chan s = openChannel /\ clock s < timeout /\ settledAt s = None)
  \/ (chan s = fst (onTimeout definition openChannel) /\ settledAt s = Some timeout
      /\ timeout <= clock s).

(** The stages a log shows as started, in order. *)
Definition stagesStarted (log : list Event) : list NetBuilderMiddleware :=
  omap (fun e => match e with EvStage m _ _ _ => Some m | EvCallback _ => None end) log.

(** The argument lists the real callback was called with, in order. *)
Definition callbackCalls (log : list Event) : list (list Value) :=
  omap (fun e => match e with EvCallback args => Some args | EvStage _ _ _ _ => None end) log.

(** No two stages that stand next to each other share a label other
    than "Unknown". *)
Definition adjacentDistinct (l : list NetBuilderMiddleware) : Prop :=
  forall i m1 m2, l !! i = Some m1 -> l !! S i = Some m2 ->
    Label m2 <> Label m1 \/ Label m2 = "Unknown".

(** The time a piece of a body spends in [OpWait]. *)
Fixpoint waited (ops : list StageOp) : nat :=
  match ops with
  | [] => 0
  | OpWait d :: rest => d + waited rest
  | _ :: rest => waited rest
  end.

(** The result a call of a continuation hands to [close]. *)
Definition callResult (op : StageOp) : option ThreadResult :=
  match op with
  | OpProcessNext args returnFn => Some (Ok (args, returnFn))
  | OpDrop reason => Some (Err reason)
  | OpWait _ | OpEffect _ => None
  end.

(** ** Sample data *)

(** A stage that hands its arguments on, like [middlewareFn] of the
    builder, with the identity as its transform. *)
Definition passThrough : MiddlewareCallback :=
  fun _ _ args => [OpProcessNext (Some args) (fun r => r)].

Definition stage (label : string) : NetBuilderMiddleware :=
  {| Label := label; MSend := passThrough; MRecv := passThrough |}.

Definition server : RunService :=
  {| IsServer := true; IsClient := false; LocalPlayer := VUndefined |}.

Definition client : RunService :=
  {| IsServer := false; IsClient := true; LocalPlayer := VPlayer 7 |}.

Definition target (own global : list NetBuilderMiddleware) : RemoteDefinitionMembers :=
  {| Id := "Ping"; Info := "[Ping]"; Middlewares := own; GlobalMiddleware := global |}.

(** A stage that never calls a continuation: it logs, waits and logs. *)
Definition silent : MiddlewareCallback :=
  fun _ _ _ => [OpEffect 1; OpWait 100; OpEffect 2].

(** A stage that rejects at once. *)
Definition rejecting (reason : string) : MiddlewareCallback :=
  fun _ _ _ => [OpDrop reason].

(** A stage that accepts after five time units, without arguments, and
    has code left after the call. *)
Definition lateAccept (returnFn : ReturnFn) : MiddlewareCallback :=
  fun _ _ _ => [OpEffect 1; OpWait 5; OpProcessNext None returnFn; OpEffect 2].

(** A stage that hands its arguments on with the transform [returnFn]. *)
Definition transforming (returnFn : ReturnFn) : MiddlewareCallback :=
  fun _ _ args => [OpProcessNext (Some args) returnFn].

Definition plusOne : ReturnFn :=
  fun v => match v with VNumber n => VNumber (n + 1) | _ => v end.

Definition double : ReturnFn :=
  fun v => match v with VNumber n => VNumber (2 * n) | _ => v end.

(** A callback that answers with the number of arguments it was given. *)
Definition countArgs : list Value -> Value :=
  fun args => VNumber (Z.of_nat (length args)).

Definition stageOf (label : string) (body : MiddlewareCallback) : NetBuilderMiddleware :=
  {| Label := label; MSend := body; MRecv := body |}.

(** ** The builder ([src/Builders/NetBuilder.ts]) *)

Module NetBuilder.

(** What a call returns, or the message of the Lua [error] that ends it. *)
Inductive Outcome (A : Type) : Type :=
  | Returned (a : A)
  | Raised (message : string).
Arguments Returned {A} a.
Arguments Raised {A} message.

(** The middleware objects [CreateMiddleware] returns. *)
Record Middleware : Type := {
  Id : string;
  GlobalEnabled : bool;
  Send : MiddlewareCallback;
  Recv : MiddlewareCallback
}.

(** [ISerializationMap]: three maps keyed by objects, here by their
    references; an entry of [SerializerClasses] is the serializer and
    its id. *)
Record ISerializationMap : Type := {
  Serializables : gmap nat nat;
  Serializers : gmap nat nat;
  SerializerClasses : gmap nat (nat * nat)
}.

(** A dictionary of remote definitions: the string keys, and the slots
    kept under the symbols [NamespaceId], [NamespaceParent],
    [Configuration], [GlobalMiddleware], [Serializables], [Serializers]
    and [SerializationMap]. *)
Record Dictionary : Type := {
  entries : gmap string nat;
  NamespaceId : option string;
  NamespaceParent : option nat;
  Configuration : option (gmap string Value);
  GlobalMiddleware : option (list Middleware);
  SerializableClasses : option (list nat);
  SerializerList : option (list nat);
  SerializationMap : option ISerializationMap
}.

(** The tables the builder shares by reference: definitions, of which
    it reads [Id] and writes [Namespace], and dictionaries. *)
Inductive Cell : Type :=
  | DefinitionCell (definitionId : string) (Namespace : option nat)
  | DictionaryCell (d : Dictionary).

(** A table and whether [table.freeze] was applied to it. *)
Record Object : Type := {
  cell : Cell;
  frozen : bool
}.

(** The store of tables; a reference is a position in it. *)
Abbreviation Heap := (list Object).

(** The fields of a builder. *)
Record Builder : Type := {
  definitions : list nat;
  middlewareList : list Middleware;
  namespaces : list (string * nat);
  configuration : gmap string Value;
  serializableClasses : list nat;
  serializers : list nat;
  serializationMap : ISerializationMap
}.

(** [new NetBuilder()], for the [DEFAULT_CONFIGURATION] of
    [Util/constants], which is not among the sources. *)
Definition create (DEFAULT_CONFIGURATION : gmap string Value) : Builder :=
  {| definitions := []; middlewareList := []; namespaces := [];
     configuration := DEFAULT_CONFIGURATION;
     serializableClasses := []; serializers := [];
     serializationMap := {| Serializables := ∅; Serializers := ∅;
                            SerializerClasses := ∅ |} |}.

(** [this.definitions.push(definition)] *)
Definition BindDefinition (definition : nat) (b : Builder) : Builder :=
  {| definitions := definitions b ++ [definition];
     middlewareList := middlewareList b; namespaces := namespaces b;
     configuration := configuration b;
     serializableClasses := serializableClasses b; serializers := serializers b;
     serializationMap := serializationMap b |}.

(** [this.namespaces.push({ name, space })] *)
Definition BindNamespace (name : string) (space : nat) (b : Builder) : Builder :=
  {| definitions := definitions b;
     middlewareList := middlewareList b;
     namespaces := namespaces b ++ [(name, space)];
     configuration := configuration b;
     serializableClasses := serializableClasses b; serializers := serializers b;
     serializationMap := serializationMap b |}.

(** [this.middlewareList = middleware] *)
Definition UseGlobalMiddleware (middleware : list Middleware) (b : Builder) : Builder :=
  {| definitions := definitions b;
     middlewareList := middleware;
     namespaces := namespaces b;
     configuration := configuration b;
     serializableClasses := serializableClasses b; serializers := serializers b;
     serializationMap := serializationMap b |}.

(** The double quote of the error message. *)
Definition quote : string :=
  String (Ascii.Ascii false true false false false true false false) EmptyString.

(** [`[netbuilder] The middleware "${Id}" is not globally enabled.`] *)
Definition notGloballyEnabled (id : string) : string :=
  "[netbuilder] The middleware " +:+ quote +:+ id +:+ quote
  +:+ " is not globally enabled.".

(** What Luau raises on a write to a frozen table. *)
Definition readonlyError : string := "attempt to modify a readonly table".

(** A reference that does not hold the kind of table the types of the
    source promise. *)
Definition typeError : string := "reference to a table of another type".

(** The first loop of [_build]: [error] at the first middleware that is
    not globally enabled. *)
Fixpoint checkGlobal (middlewares : list Middleware) : Outcome unit :=
  match middlewares with
  | [] => Returned tt
  | m :: rest =>
      if GlobalEnabled m then checkGlobal rest
      else Raised (notGloballyEnabled (Id m))
  end.

Definition onDictionary (f : Dictionary -> Dictionary) (o : Object) : Object :=
  match cell o with
  | DictionaryCell d => {| cell := DictionaryCell (f d); frozen := frozen o |}
  | DefinitionCell _ _ => o
  end.

(** [dict.set(key, value)] *)
Definition setEntry (key : string) (value : nat) (d : Dictionary) : Dictionary :=
  {| entries := <[key := value]> (entries d);
     NamespaceId := NamespaceId d; NamespaceParent := NamespaceParent d;
     Configuration := Configuration d; GlobalMiddleware := GlobalMiddleware d;
     SerializableClasses := SerializableClasses d; SerializerList := SerializerList d;
     SerializationMap := SerializationMap d |}.

(** The three writes to a bound namespace: its name, its parent, and
    its configuration, [{ ...this.configuration, ...s[Configuration] }]
    when it has one and [this.configuration] otherwise. *)
Definition adopt (name : string) (parent : nat) (config : gmap string Value)
    (d : Dictionary) : Dictionary :=
  {| entries := entries d;
     NamespaceId := Some name;
     NamespaceParent := Some parent;
     Configuration := match Configuration d with
                      | Some own => Some (own ∪ config)
                      | None => Some config
                      end;
     GlobalMiddleware := GlobalMiddleware d;
     SerializableClasses := SerializableClasses d; SerializerList := SerializerList d;
     SerializationMap := SerializationMap d |}.

(** The five writes that end [_build]. *)
Definition describe (b : Builder) (d : Dictionary) : Dictionary :=
  {| entries := entries d;
     NamespaceId := NamespaceId d; NamespaceParent := NamespaceParent d;
     Configuration := Some (configuration b);
     GlobalMiddleware := Some (middlewareList b);
     SerializableClasses := Some (serializableClasses b);
     SerializerList := Some (serializers b);
     SerializationMap := Some (serializationMap b) |}.

Definition emptyDictionary : Dictionary :=
  {| entries := ∅; NamespaceId := None; NamespaceParent := None;
     Configuration := None; GlobalMiddleware := None;
     SerializableClasses := None; SerializerList := None; SerializationMap := None |}.

(** The second loop of [_build], over the definitions: [def.Namespace =
    dict], which a frozen definition refuses, then
    [dict.set(def.Id, table.freeze(d))]. *)
Fixpoint bindDefinitions (dict : nat) (defs : list nat) (h : Heap) :
    Outcome unit * Heap :=
  match defs with
  | [] => (Returned tt, h)
  | d :: rest =>
      match h !! d with
      | Some o =>
          match cell o with
          | DefinitionCell id _ =>
              if frozen o then (Raised readonlyError, h)
              else
                let h1 := <[d := {| cell := DefinitionCell id (Some dict);
                                    frozen := true |}]> h in
                bindDefinitions dict rest (alter (onDictionary (setEntry id d)) dict h1)
          | DictionaryCell _ => (Raised typeError, h)
          end
      | None => (Raised typeError, h)
      end
  end.

(** The third loop of [_build], over the bound namespaces: the writes
    under the symbols, which a frozen namespace refuses, then
    [dict.set(name, table.freeze(space))].  [Util/symbolDictionary] is
    not among the sources; it is taken to return the table it is given,
    as the resolver reads [definition.Namespace[GlobalMiddleware]] from
    the dictionary itself and [createDispatchers] skips the keys of a
    dictionary that are not strings. *)
Fixpoint bindNamespaces (dict : nat) (config : gmap string Value)
    (spaces : list (string * nat)) (h : Heap) : Outcome unit * Heap :=
  match spaces with
  | [] => (Returned tt, h)
  | (name, space) :: rest =>
      match h !! space with
      | Some o =>
          match cell o with
          | DictionaryCell d =>
              if frozen o then (Raised readonlyError, h)
              else
                let h1 := <[space := {| cell := DictionaryCell (adopt name dict config d);
                                        frozen := true |}]> h in
                bindNamespaces dict config rest
                  (alter (onDictionary (setEntry name space)) dict h1)
          | DefinitionCell _ _ => (Raised typeError, h)
          end
      | None => (Raised typeError, h)
      end
  end.

(** [_build()]: the new dictionary, or the error that ended the call,
    and the store as the call leaves it. *)
Definition _build (b : Builder) (h : Heap) : Outcome nat * Heap :=
  let dict := length h in
  let h0 := h ++ [{| cell := DictionaryCell emptyDictionary; frozen := false |}] in
  match checkGlobal (middlewareList b) with
  | Raised message => (Raised message, h0)
  | Returned _ =>
      match bindDefinitions dict (definitions b) h0 with
      | (Raised message, h1) => (Raised message, h1)
      | (Returned _, h1) =>
          match bindNamespaces dict (configuration b) (namespaces b) h1 with
          | (Raised message, h2) => (Raised message, h2)
          | (Returned _, h2) =>
              (Returned dict, alter (onDictionary (describe b)) dict h2)
          end
      end
  end.

(** [AsNamespace()] *)
Definition AsNamespace (b : Builder) (h : Heap) : Outcome nat * Heap := _build b h.

(** The first loop of [UseSerialization]:
    [for (const [i, obj] of ipairs(classes)) Serializables.set(obj, i)],
    with the positions of Lua, which start at [i] = 1. *)
Fixpoint setPositions (i : nat) (objs : list nat) (m : gmap nat nat) : gmap nat nat :=
  match objs with
  | [] => m
  | obj :: rest => setPositions (S i) rest (<[obj := i]> m)
  end.

(** The second loop: [SerializerClasses.set(obj.Class, { Serializer:
    obj, Id: i })], for the field [Class] of the serializers. *)
Fixpoint setClasses (Class : nat -> nat) (i : nat) (objs : list nat)
    (m : gmap nat (nat * nat)) : gmap nat (nat * nat) :=
  match objs with
  | [] => m
  | obj :: rest => setClasses Class (S i) rest (<[Class obj := (obj, i)]> m)
  end.

(** [UseSerialization(classes)], for the test [Serialization.IsSerializer]
    of [Core/Serialization], which is not among the sources, and the
    field [Class] of the serializers.  The three maps are the ones the
    builder was created with: they are written to, not replaced. *)
Definition UseSerialization (IsSerializer : nat -> bool) (Class : nat -> nat)
    (classes : list nat) (b : Builder) : Builder :=
  let plain := filter (fun v => IsSerializer v = false) classes in
  let custom := filter (fun v => IsSerializer v = true) classes in
  {| definitions := definitions b;
     middlewareList := middlewareList b;
     namespaces := namespaces b;
     configuration := configuration b;
     serializableClasses := plain;
     serializers := custom;
     serializationMap :=
       {| Serializables := setPositions 1 plain (Serializables (serializationMap b));
          Serializers := setPositions 1 custom (Serializers (serializationMap b));
          SerializerClasses :=
            setClasses Class 1 custom (SerializerClasses (serializationMap b)) |} |}.

(** What the [Serialization] method of a serializer made by
    [CreateSerializer(object, methods)] returns: the type tag [Custom],
    the id found under [object] in the [SerializerClasses] of the
    namespace, and the value [methods.Serialize] gives. *)
Inductive SerializationType : Type := Custom.

Record Serialized : Type := {
  SerializationKind : SerializationType;
  SerializationId : nat;
  SerializedValue : Value
}.

(** What Luau raises when the namespace has no serializer for [object],
    and when it has no serialization map at all. *)
Definition indexNilError : string := "attempt to index nil with 'Id'".

Definition noMapError : string := "attempt to index nil with 'SerializerClasses'".

Definition Serialization (object : nat) (Serialize : Value -> Value)
    (h : Heap) (namespace : nat) (value : Value) : Outcome Serialized :=
  match h !! namespace with
  | Some o =>
      match cell o with
      | DictionaryCell d =>
          match SerializationMap d with
          | Some maps =>
              match SerializerClasses maps !! object with
              | Some (_, id) =>
                  Returned {| SerializationKind := Custom; SerializationId := id;
                              SerializedValue := Serialize value |}
              | None => Raised indexNilError
              end
          | None => Raised noMapError
          end
      | DefinitionCell _ _ => Raised typeError
      end
  | None => Raised typeError
  end.

(** The binding a name has in a list of bindings made in order: the
    last one under that name. *)
Fixpoint lastBound (key : string) (bindings : list (string * nat)) : option nat :=
  match bindings with
  | [] => None
  | (k, v) :: rest =>
      match lastBound key rest with
      | Some later => Some later
      | None => if decide (k = key) then Some v else None
      end
  end.

(** The effect of a list of [dict.set] on a dictionary. *)
Definition applyBindings (bindings : list (string * nat)) (d : Dictionary) : Dictionary :=
  fold_left (fun d b => setEntry b.1 b.2 d) bindings d.

(** The id a definition has in the store. *)
Definition idOf (h : Heap) (d : nat) : option string :=
  match h !! d with
  | Some o => match cell o with
              | DefinitionCell id _ => Some id
              | DictionaryCell _ => None
              end
  | None => None
  end.

(** The store holds a dictionary at [dict]. *)
Definition holdsDictionary (h : Heap) (dict : nat) : Prop :=
  exists d fr, h !! dict = Some {| cell := DictionaryCell d; frozen := fr |}.

(** The bindings [_build] makes, in the order it makes them. *)
Definition bindingsOf (b : Builder) (h : Heap) : list (string * nat) :=
  omap (fun d => id ← idOf h d; Some (id, d)) (definitions b) ++ namespaces b.

(** Sample store: two definitions and an unbuilt child dictionary. *)
Definition sampleHeap : Heap :=
  [ {| cell := DefinitionCell "Ping" None; frozen := false |};
    {| cell := DefinitionCell "Pong" None; frozen := false |};
    {| cell := DictionaryCell emptyDictionary; frozen := false |} ].

Definition sampleMiddleware (id : string) (enabled : bool) : Middleware :=
  {| Id := id; GlobalEnabled := enabled; Send := passThrough; Recv := passThrough |}.

Definition sampleBuilder : Builder :=
  BindNamespace "Child" 2 (BindDefinition 1 (BindDefinition 0 (create ∅))).

End NetBuilder.

(** * Properties *)

(** ** Stage registry *)

Lemma sameLabel_true (m1 m2 : NetBuilderMiddleware) :
  sameLabel m1 m2 = true <-> Label m1 = Label m2 /\ Label m1 <> "Unknown".
Proof.
  unfold sameLabel.
  rewrite andb_true_iff, negb_true_iff, bool_decide_eq_true, bool_decide_eq_false.
  reflexivity.
Qed.

Lemma sameLabel_Unknown (m1 m2 : NetBuilderMiddleware) :
  Label m1 = "Unknown" -> sameLabel m1 m2 = false.
Proof.
  intros H. destruct (sameLabel m1 m2) eqn:E; [|reflexivity].
  apply sameLabel_true in E. tauto.
Qed.

(** A stage labelled "Unknown" is never dropped by the registry. *)
Lemma dedupBy_from_keeps_Unknown (kept : NetBuilderMiddleware) (l : list NetBuilderMiddleware) :
  Forall (fun m => Label m = "Unknown") l -> dedupBy_from sameLabel kept l = l.
Proof.
  revert kept. induction l as [|x l IH]; intros kept Hall; [reflexivity|].
  inversion Hall as [|? ? Hx Hl]; subst. simpl.
  rewrite (sameLabel_Unknown x kept Hx). f_equal. apply IH, Hl.
Qed.

Lemma getMiddlewares_keeps_Unknown (definition : RemoteDefinitionMembers) :
  Forall (fun m => Label m = "Unknown")
    (Middlewares definition ++ GlobalMiddleware definition) ->
  getMiddlewares definition = Middlewares definition ++ GlobalMiddleware definition.
Proof.
  unfold getMiddlewares, dedupBy. intros Hall.
  destruct (Middlewares definition ++ GlobalMiddleware definition) as [|x l]; [reflexivity|].
  inversion Hall; subst. f_equal. apply dedupBy_from_keeps_Unknown. assumption.
Qed.

Lemma dedupBy_from_neighbours (kept : NetBuilderMiddleware) (l : list NetBuilderMiddleware) :
  neighboursDiffer kept (dedupBy_from sameLabel kept l).
Proof.
  revert kept. induction l as [|x l IH]; intros kept; simpl; [exact I|].
  destruct (sameLabel x kept) eqn:E; simpl; auto.
Qed.

(** C1: on the target stages [A(x); B(x); C(y)] with the global stage
    [D(x)], [getMiddlewares] resolves [A; C; D]: the pass of [dedupBy]
    drops [B], the neighbour of [A], and keeps [D], which no longer
    stands next to a stage labelled [x]. *)
Theorem getMiddlewares_keeps_distant_duplicate
    (A B C D : NetBuilderMiddleware) (x y : string) :
  Label A = x -> Label B = x -> Label C = y -> Label D = x ->
  x <> y -> x <> "Unknown" ->
  getMiddlewares (target [A; B; C] [D]) = [A; C; D].
Proof.
  intros HA HB HC HD Hxy Hx.
  unfold getMiddlewares, dedupBy. simpl.
  assert (EB : sameLabel B A = true) by (apply sameLabel_true; split; congruence).
  assert (EC : sameLabel C A = false).
  { destruct (sameLabel C A) eqn:E; [|reflexivity].
    apply sameLabel_true in E. destruct E. congruence. }
  assert (ED : sameLabel D C = false).
  { destruct (sameLabel D C) eqn:E; [|reflexivity].
    apply sameLabel_true in E. destruct E. congruence. }
  rewrite EB, EC, ED. reflexivity.
Qed.

Lemma getMiddlewares_keeps_distant_duplicate_witness :
  getMiddlewares (target [stage "x"; stage "x"; stage "y"] [stage "x"])
  = [stage "x"; stage "y"; stage "x"].
Proof.
  apply (getMiddlewares_keeps_distant_duplicate _ _ _ _ "x" "y");
    try reflexivity; discriminate.
Defined.

(** On the same stages the two notions part: keeping first occurrences
    gives [A; C], the registry gives [A; C; D]. *)
Example registry_differs_from_first_occurrences :
  let definition := target [stage "x"; stage "x"; stage "y"] [stage "x"] in
  firstOccurrences [] (Middlewares definition ++ GlobalMiddleware definition)
  = [stage "x"; stage "y"]
  /\ getMiddlewares definition = [stage "x"; stage "y"; stage "x"]
  /\ length (getMiddlewares definition) = 3.
Proof. repeat split. Qed.

(** Stages that stand next to each other are deduplicated as the
    specification has it. *)
Example registry_drops_neighbours :
  getMiddlewares (target [stage "x"; stage "y"; stage "Unknown"]
                    [stage "Unknown"; stage "z"; stage "z"])
  = [stage "x"; stage "y"; stage "Unknown"; stage "Unknown"; stage "z"].
Proof. reflexivity. Qed.

(** ** Stage channel *)

Lemma close_done (result : ThreadResult) (c : Channel) :
  isDone c = true -> close result c = (c, false).
Proof. unfold close. intros ->. reflexivity. Qed.

Lemma close_open (result : ThreadResult) :
  close result openChannel
  = ({| isDone := true; co := Some result; coSpawned := 1; chClosed := 1;
        timeoutCancelled := 1; bindableFired := 1 |}, true).
Proof. reflexivity. Qed.

Lemma fire_close (definition : RemoteDefinitionMembers) (t : Trigger) (c : Channel) :
  fire definition t c = close (resultOf definition t) c.
Proof. destruct t; reflexivity. Qed.

Lemma fireAll_done (definition : RemoteDefinitionMembers) (ts : list Trigger) (c : Channel) :
  isDone c = true -> fireAll definition ts c = c.
Proof.
  intros Hc. induction ts as [|t ts IH]; [reflexivity|].
  unfold fireAll in *. simpl. rewrite fire_close, close_done by assumption.
  exact IH.
Qed.

(** C3: the first trigger to reach [close] settles the channel with its
    own result and releases each resource once; every later trigger,
    whichever it is, leaves the channel as it was and returns without
    yielding. *)
Theorem channel_settles_once
    (definition : RemoteDefinitionMembers) (first : Trigger) (later : list Trigger) :
  let settled := fst (fire definition first openChannel) in
  co settled = Some (resultOf definition first)
  /\ isDone settled = true
  /\ fireAll definition (first :: later) openChannel = settled
  /\ Forall (fun t => fire definition t settled = (settled, false)) later
  /\ bindableFired (fireAll definition (first :: later) openChannel) = 1
  /\ timeoutCancelled (fireAll definition (first :: later) openChannel) = 1
  /\ chClosed (fireAll definition (first :: later) openChannel) = 1
  /\ coSpawned (fireAll definition (first :: later) openChannel) = 1.
Proof.
  intros settled.
  assert (Hs : settled
               = {| isDone := true; co := Some (resultOf definition first);
                    coSpawned := 1; chClosed := 1; timeoutCancelled := 1;
                    bindableFired := 1 |}).
  { unfold settled. rewrite fire_close, close_open. reflexivity. }
  assert (Hd : isDone settled = true) by (rewrite Hs; reflexivity).
  assert (Hall : fireAll definition (first :: later) openChannel = settled).
  { change (fireAll definition later settled = settled). apply fireAll_done, Hd. }
  rewrite Hall. repeat split; try (rewrite Hs; reflexivity).
  apply Forall_forall. intros t _. rewrite fire_close. apply close_done, Hd.
Qed.

Lemma elapse_open (definition : RemoteDefinitionMembers) (d : nat) (s : Invocation) :
  chan s = openChannel ->
  elapse definition d s
  = if (timeout <=? clock s + d)%nat then
      {| chan := fst (onTimeout definition openChannel); clock := clock s + d;
         settledAt := Some timeout; executed := executed s; suspended := suspended s |}
    else
      {| chan := openChannel; clock := clock s + d; settledAt := settledAt s;
         executed := executed s; suspended := suspended s |}.
Proof. intros Hc. unfold elapse. rewrite Hc. reflexivity. Qed.

Lemma elapse_done (definition : RemoteDefinitionMembers) (d : nat) (s : Invocation) :
  isDone (chan s) = true ->
  elapse definition d s
  = {| chan := chan s; clock := clock s + d; settledAt := settledAt s;
       executed := executed s; suspended := suspended s |}.
Proof. intros Hd. unfold elapse. rewrite Hd. reflexivity. Qed.

Lemma elapse_ok (definition : RemoteDefinitionMembers) (d : nat) (s : Invocation) :
  invocationOk s -> invocationOk (elapse definition d s).
Proof.
  intros [(Hc & Ht & Hs & Hp)|H].
  - rewrite (elapse_open _ _ _ Hc).
    destruct (timeout <=? clock s + d)%nat eqn:E.
    + right. split; [reflexivity|]. split; [eexists; reflexivity|].
      split; [eexists; reflexivity|]. repeat split.
    + left. apply Nat.leb_gt in E. repeat split; assumption.
  - destruct H as (Hd & H). rewrite (elapse_done _ _ _ Hd). right. split; assumption.
Qed.

Lemma logOp_ok (op : StageOp) (s : Invocation) :
  invocationOk s -> invocationOk (logOp op s).
Proof. intros H. exact H. Qed.

Lemma callContinuation_ok (op : StageOp) (result : ThreadResult) (s : Invocation) :
  invocationOk s -> invocationOk (callContinuation op (close result) s).
Proof.
  intros [(Hc & Ht & Hs & Hp)|H]; unfold callContinuation.
  - rewrite Hc, close_open. right. simpl. split; [reflexivity|].
    split; [eexists; reflexivity|]. split; [eexists; reflexivity|]. repeat split.
  - destruct H as (Hd & H). rewrite (close_done _ _ Hd). right. split; assumption.
Qed.

Lemma runBody_ok (definition : RemoteDefinitionMembers) (ops : list StageOp) (s : Invocation) :
  invocationOk s -> invocationOk (runBody definition ops s).
Proof.
  revert s. induction ops as [|op ops IH]; intros s Hs; [exact Hs|].
  destruct op as [args returnFn|reason|d|tag]; simpl.
  - pose proof (callContinuation_ok (OpProcessNext args returnFn) (Ok (args, returnFn)) s Hs) as H.
    unfold processNext. destruct (suspended _); [exact H | apply IH, H].
  - pose proof (callContinuation_ok (OpDrop reason) (Err reason) s Hs) as H.
    unfold drop. destruct (suspended _); [exact H | apply IH, H].
  - apply IH, elapse_ok, logOp_ok, Hs.
  - apply IH, logOp_ok, Hs.
Qed.

Lemma newInvocation_ok : invocationOk newInvocation.
Proof. left. repeat split. unfold timeout. simpl. lia. Qed.

Lemma runTimer_ok (definition : RemoteDefinitionMembers) (s : Invocation) :
  invocationOk s -> invocationOk (runTimer definition s).
Proof.
  intros H. unfold runTimer. destruct (isDone (chan s)); [exact H|].
  apply elapse_ok, H.
Qed.

(** Every invocation settles: once the timer has had its time the
    channel is closed, each resource was released once, and the parked
    result is the one the waiter of the chain resumes with. *)
Lemma invocation_settles (definition : RemoteDefinitionMembers) (ops : list StageOp) :
  let s := runBody definition ops newInvocation in
  let s' := runTimer definition s in
  isDone (chan s') = true
  /\ co (chan s') = Some (awaitResult definition s)
  /\ coSpawned (chan s') = 1 /\ chClosed (chan s') = 1
  /\ timeoutCancelled (chan s') = 1 /\ bindableFired (chan s') = 1.
Proof.
  intros s s'.
  pose proof (runBody_ok definition ops _ newInvocation_ok) as Hs. fold s in Hs.
  unfold s', runTimer, awaitResult.
  destruct Hs as [(Hc & Ht & _)|(Hd & [r Hr] & _ & H)].
  - rewrite (elapse_open _ _ _ Hc), Hc.
    replace (timeout <=? clock s + (timeout - clock s))%nat with true
      by (symmetry; apply Nat.leb_le; lia).
    repeat split.
  - rewrite Hd, Hr. repeat split; try assumption; apply H.
Qed.

Lemma silent_elapse (definition : RemoteDefinitionMembers) (d : nat) (s : Invocation) :
  timerOnly definition s -> timerOnly definition (elapse definition d s).
Proof.
  intros [(Hc & Ht & Hs)|(Hc & Hs & Ht)].
  - rewrite (elapse_open _ _ _ Hc).
    destruct (timeout <=? clock s + d)%nat eqn:E.
    + right. apply Nat.leb_le in E. repeat split. exact E.
    + left. apply Nat.leb_gt in E. repeat split; assumption.
  - rewrite elapse_done by (rewrite Hc; reflexivity).
    right. repeat split; [assumption | assumption | simpl; lia].
Qed.

Lemma silent_runBody (definition : RemoteDefinitionMembers) (ops : list StageOp)
    (s : Invocation) :
  Forall (fun op => isContinuationCall op = false) ops ->
  timerOnly definition s ->
  timerOnly definition (runBody definition ops s)
  /\ executed (runBody definition ops s) = executed s ++ ops.
Proof.
  revert s. induction ops as [|op ops IH]; intros s Hall Hs.
  - simpl. rewrite app_nil_r. split; [exact Hs | reflexivity].
  - inversion Hall as [|? ? Hop Hrest]; subst.
    destruct op as [args returnFn|reason|d|tag]; simpl in Hop; try discriminate; simpl.
    + assert (Hs' : timerOnly definition (elapse definition d (logOp (OpWait d) s)))
        by (apply silent_elapse; exact Hs).
      destruct (IH _ Hrest Hs') as [H1 H2].
      split; [exact H1|]. rewrite H2. unfold elapse.
      destruct (_ && _); simpl; rewrite <- app_assoc; reflexivity.
    + assert (Hs' : timerOnly definition (logOp (OpEffect tag) s)) by exact Hs.
      destruct (IH _ Hrest Hs') as [H1 H2].
      split; [exact H1|]. rewrite H2. simpl. rewrite <- app_assoc. reflexivity.
Qed.

(** C2: a stage whose body never calls [processNext] or [drop] is
    settled by the timer, at [timeout] = 60 time units and not before,
    with the rejection "<label> middleware processing has timed out.
    (60s)", which is what the chain receives for that stage. *)
Theorem silent_stage_times_out
    (definition : RemoteDefinitionMembers) (channel : MiddlewareCallback)
    (player : Value) (args : list Value) :
  Forall (fun op => isContinuationCall op = false) (channel (Id definition) player args) ->
  let s := createChannel definition channel player args in
  let message :=
    definitionInfo definition +:+ " " +:+ "middleware processing has timed out. (60s)" in
  co (chan (runTimer definition s)) = Some (Err message)
  /\ settledAt (runTimer definition s) = Some 60
  /\ (clock s < 60 -> co (chan s) = None)
  /\ awaitResult definition s = Err message
  /\ executed s = channel (Id definition) player args.
Proof.
  intros Hall s message.
  assert (H0 : timerOnly definition newInvocation).
  { left. repeat split. unfold timeout. simpl. lia. }
  destruct (silent_runBody definition _ newInvocation Hall H0) as [Hs Hex].
  fold (createChannel definition channel player args) in Hs, Hex. fold s in Hs, Hex.
  assert (Hm : timeoutReason definition = message) by reflexivity.
  unfold runTimer, awaitResult.
  destruct Hs as [(Hc & Ht & Hn)|(Hc & Hn & Ht)].
  - rewrite (elapse_open _ _ _ Hc), Hc.
    replace (timeout <=? clock s + (timeout - clock s))%nat with true
      by (symmetry; apply Nat.leb_le; lia).
    repeat split. exact Hex.
  - assert (Hd : isDone (chan s) = true) by (rewrite Hc; reflexivity).
    rewrite Hd, Hc. repeat split; [exact Hn| |exact Hex].
    intros Hlt. unfold timeout in Ht. lia.
Qed.

Lemma silent_stage_times_out_witness :
  awaitResult (target [stageOf "Quiet" silent] [])
    (createChannel (target [stageOf "Quiet" silent] []) silent (VPlayer 1) [VNumber 5])
  = Err "[Ping] middleware processing has timed out. (60s)".
Proof.
  apply (silent_stage_times_out (target [stageOf "Quiet" silent] []) silent
           (VPlayer 1) [VNumber 5]).
  repeat constructor.
Defined.

Lemma callContinuation_suspended (op : StageOp) (result : ThreadResult) (s : Invocation) :
  suspended (callContinuation op (close result) s) = negb (isDone (chan s)).
Proof. unfold callContinuation, close. destruct (isDone (chan s)); reflexivity. Qed.

Lemma callContinuation_done (op : StageOp) (result : ThreadResult) (s : Invocation) :
  isDone (chan (callContinuation op (close result) s)) = true.
Proof.
  unfold callContinuation, close. destruct (isDone (chan s)) eqn:E; simpl; [exact E | reflexivity].
Qed.

Lemma elapse_done_mono (definition : RemoteDefinitionMembers) (d : nat) (s : Invocation) :
  isDone (chan s) = true -> isDone (chan (elapse definition d s)) = true.
Proof. intros Hd. rewrite (elapse_done _ _ _ Hd). exact Hd. Qed.

Lemma runBody_done_mono (definition : RemoteDefinitionMembers) (ops : list StageOp)
    (s : Invocation) :
  isDone (chan s) = true -> isDone (chan (runBody definition ops s)) = true.
Proof.
  revert s. induction ops as [|op ops IH]; intros s Hd; [exact Hd|].
  destruct op as [args returnFn|reason|d|tag]; simpl.
  - unfold processNext. destruct (suspended _); [|apply IH]; apply callContinuation_done.
  - unfold drop. destruct (suspended _); [|apply IH]; apply callContinuation_done.
  - apply IH, elapse_done_mono. exact Hd.
  - apply IH. exact Hd.
Qed.

Lemma elapse_facts (definition : RemoteDefinitionMembers) (d : nat) (s : Invocation) :
  executed (elapse definition d s) = executed s
  /\ suspended (elapse definition d s) = suspended s.
Proof. unfold elapse. destruct (_ && _); split; reflexivity. Qed.

(** While the channel is open after a piece of the body, that piece ran
    to its end without calling a continuation, and the body goes on. *)
Lemma runBody_still_open (definition : RemoteDefinitionMembers) (ops : list StageOp)
    (s : Invocation) :
  isDone (chan (runBody definition ops s)) = false ->
  suspended s = false ->
  suspended (runBody definition ops s) = false
  /\ executed (runBody definition ops s) = executed s ++ ops
  /\ forall more, runBody definition (ops ++ more) s
                  = runBody definition more (runBody definition ops s).
Proof.
  revert s. induction ops as [|op ops IH]; intros s Hopen Hs.
  - simpl. rewrite app_nil_r. repeat split. exact Hs.
  - destruct op as [args returnFn|reason|d|tag]; simpl in *.
    + exfalso. unfold processNext in Hopen.
      destruct (suspended _);
        [|rewrite runBody_done_mono in Hopen by apply callContinuation_done];
        try rewrite callContinuation_done in Hopen; discriminate.
    + exfalso. unfold drop in Hopen.
      destruct (suspended _);
        [|rewrite runBody_done_mono in Hopen by apply callContinuation_done];
        try rewrite callContinuation_done in Hopen; discriminate.
    + destruct (elapse_facts definition d (logOp (OpWait d) s)) as [He Hp].
      destruct (IH _ Hopen) as (H1 & H2 & H3); [rewrite Hp; exact Hs|].
      split; [exact H1|]. split; [|exact H3].
      rewrite H2, He. simpl. rewrite <- app_assoc. reflexivity.
    + destruct (IH _ Hopen) as (H1 & H2 & H3); [exact Hs|].
      split; [exact H1|]. split; [|exact H3].
      rewrite H2. simpl. rewrite <- app_assoc. reflexivity.
Qed.

(** C10: when a call of [processNext] or [drop] from the body performs
    the close (the channel is still open when the body reaches it), the
    thread of the body is parked in the yield of [close] for good: the
    run is the same whatever code follows the call, nothing after the
    call is executed, the close of [ch] has been deferred once, and
    serving the waiter does not touch the parked thread. *)
Theorem continuation_call_never_returns
    (definition : RemoteDefinitionMembers) (pre post : list StageOp) (op : StageOp) :
  isContinuationCall op = true ->
  isDone (chan (runBody definition pre newInvocation)) = false ->
  let s := runBody definition (pre ++ op :: post) newInvocation in
  suspended s = true
  /\ executed s = pre ++ [op]
  /\ s = runBody definition (pre ++ [op]) newInvocation
  /\ isDone (chan s) = true
  /\ chClosed (chan s) = 1
  /\ runTimer definition s = s
  /\ match op with
     | OpProcessNext args returnFn => co (chan s) = Some (Ok (args, returnFn))
     | OpDrop reason => co (chan s) = Some (Err reason)
     | _ => True
     end.
Proof.
  intros Hop Hopen s.
  destruct (runBody_still_open definition pre newInvocation Hopen eq_refl)
    as (Hsusp & Hexec & Happ).
  pose proof (runBody_ok definition pre _ newInvocation_ok) as Hinv.
  destruct Hinv as [(Hc & _)|(Hd & _)]; [|congruence].
  unfold s. rewrite !Happ.
  set (before := runBody definition pre newInvocation) in *.
  simpl in Hexec.
  destruct op as [args returnFn|reason|d|tag]; simpl in Hop; try discriminate; simpl.
  - unfold processNext. rewrite callContinuation_suspended, Hopen. simpl.
    unfold callContinuation. rewrite Hc, close_open. simpl. rewrite Hexec.
    repeat split.
  - unfold drop. rewrite callContinuation_suspended, Hopen. simpl.
    unfold callContinuation. rewrite Hc, close_open. simpl. rewrite Hexec.
    repeat split.
Qed.

Lemma continuation_call_never_returns_witness :
  executed (createChannel (target [] []) (lateAccept (fun r => r)) (VPlayer 1) [])
  = [OpEffect 1; OpWait 5; OpProcessNext None (fun r => r)].
Proof.
  apply (continuation_call_never_returns (target [] []) [OpEffect 1; OpWait 5]
           [OpEffect 2] (OpProcessNext None (fun r => r)));
    reflexivity.
Defined.

(** A call that arrives after the timer has closed the channel is the
    other case: it returns, and the body goes on. *)
Example call_after_timeout_returns :
  let s := runBody (target [] [])
             [OpWait 61; OpProcessNext None (fun r => r); OpEffect 2] newInvocation in
  suspended s = false
  /\ executed s = [OpWait 61; OpProcessNext None (fun r => r); OpEffect 2]
  /\ co (chan s) = Some (Err "[Ping] middleware processing has timed out. (60s)")
  /\ settledAt s = Some 60.
Proof. repeat split. Qed.

(** ** Chain executor *)

Lemma onSettled_accept (state : MiddlewareEntry) (newParams : option (list Value))
    (returnFn : ReturnFn) :
  mayContinue state = true ->
  onSettled state (Ok (newParams, returnFn))
  = {| CurrentParameters := default [] newParams;
       ReturnCallbacks := ReturnCallbacks state ++ [returnFn];
       Result := Some (Ok (newParams, returnFn)) |}.
Proof. unfold onSettled. intros ->. reflexivity. Qed.

Lemma onSettled_reject (state : MiddlewareEntry) (reason : string) :
  mayContinue state = true ->
  onSettled state (Err reason)
  = {| CurrentParameters := CurrentParameters state;
       ReturnCallbacks := ReturnCallbacks state;
       Result := Some (Err reason) |}.
Proof. unfold onSettled. intros ->. reflexivity. Qed.

Lemma forMiddlewares_accept (definition : RemoteDefinitionMembers) (kind : Kind)
    (player : Value) (m : NetBuilderMiddleware) (rest : list NetBuilderMiddleware)
    (state : MiddlewareEntry) (newParams : option (list Value)) (returnFn : ReturnFn) :
  mayContinue state = true ->
  invokeStage definition kind player m (CurrentParameters state) = Ok (newParams, returnFn) ->
  forMiddlewares definition kind player (m :: rest) state
  = (_ <- tell (EvStage m kind player (CurrentParameters state)) ;;
     forMiddlewares definition kind player rest
       {| CurrentParameters := default [] newParams;
          ReturnCallbacks := ReturnCallbacks state ++ [returnFn];
          Result := Some (Ok (newParams, returnFn)) |}).
Proof.
  intros Hc Hr. simpl. rewrite Hr, (onSettled_accept _ _ _ Hc). reflexivity.
Qed.

Lemma forMiddlewares_reject (definition : RemoteDefinitionMembers) (kind : Kind)
    (player : Value) (m : NetBuilderMiddleware) (rest : list NetBuilderMiddleware)
    (state : MiddlewareEntry) (reason : string) :
  mayContinue state = true ->
  invokeStage definition kind player m (CurrentParameters state) = Err reason ->
  forMiddlewares definition kind player (m :: rest) state
  = (Some {| CurrentParameters := CurrentParameters state;
             ReturnCallbacks := ReturnCallbacks state;
             Result := Some (Err reason) |},
     [EvStage m kind player (CurrentParameters state)]).
Proof.
  intros Hc Hr. simpl. rewrite Hr, (onSettled_reject _ _ Hc). reflexivity.
Qed.

(** A run of accepting stages: the state they leave and the log they
    write, followed by the run of whatever stages come next. *)
Lemma forMiddlewares_after_accepting (definition : RemoteDefinitionMembers) (kind : Kind)
    (player : Value) (ms1 ms2 : list NetBuilderMiddleware) (state : MiddlewareEntry)
    (fns : list ReturnFn) (final : list Value) :
  allAccept definition kind player ms1 (CurrentParameters state) = Some (fns, final) ->
  mayContinue state = true ->
  exists res log1,
    let state1 := {| CurrentParameters := final;
                     ReturnCallbacks := ReturnCallbacks state ++ fns;
                     Result := res |} in
    mayContinue state1 = true
    /\ (ms1 = [] -> res = Result state)
    /\ (ms1 <> [] -> exists accepted, res = Some (Ok accepted))
    /\ length fns = length ms1
    /\ stagesStarted log1 = ms1
    /\ callbackCalls log1 = []
    /\ Forall (fun e => exists m args, e = EvStage m kind player args) log1
    /\ forMiddlewares definition kind player (ms1 ++ ms2) state
       = let '(r, log2) := forMiddlewares definition kind player ms2 state1 in
         (r, log1 ++ log2).
Proof.
  revert state fns final. induction ms1 as [|m ms1 IH]; intros state fns final Hall Hc.
  - simpl in Hall. injection Hall as <- <-.
    exists (Result state), []. simpl. rewrite app_nil_r.
    split; [exact Hc|]. split; [reflexivity|]. split; [congruence|].
    repeat (split; [solve [reflexivity | constructor]|]).
    destruct state; simpl.
    destruct (forMiddlewares _ _ _ _ _); reflexivity.
  - simpl in Hall.
    destruct (invokeStage definition kind player m (CurrentParameters state))
      as [[newParams returnFn]|reason] eqn:Hr; [|discriminate].
    destruct (allAccept definition kind player ms1 (default [] newParams))
      as [[fns' final']|] eqn:Hrest; [|discriminate].
    injection Hall as <- <-.
    destruct (IH {| CurrentParameters := default [] newParams;
                    ReturnCallbacks := ReturnCallbacks state ++ [returnFn];
                    Result := Some (Ok (newParams, returnFn)) |} fns' final' Hrest eq_refl)
      as (res & log1 & Hc1 & Hnil & Hcons & Hlen & Hst & Hcb & Hev & Hrun).
    cbn [CurrentParameters ReturnCallbacks Result] in Hc1, Hnil, Hrun.
    rewrite <- app_assoc in Hc1, Hrun.
    exists res, (EvStage m kind player (CurrentParameters state) :: log1).
    cbn zeta.
    split; [exact Hc1|]. split; [discriminate|].
    split.
    { intros _. destruct ms1 as [|m' ms1'].
      - rewrite (Hnil eq_refl). eexists; reflexivity.
      - apply Hcons. discriminate. }
    split; [simpl; f_equal; exact Hlen|].
    split; [simpl; f_equal; exact Hst|].
    split; [exact Hcb|].
    split; [constructor; [eexists _, _; reflexivity | exact Hev]|].
    change ((m :: ms1) ++ ms2) with (m :: (ms1 ++ ms2)).
    rewrite (forMiddlewares_accept _ _ _ _ _ _ _ _ Hc Hr).
    unfold bind, tell. rewrite Hrun.
    destruct (forMiddlewares definition kind player ms2 _) as [r log2]. reflexivity.
Qed.

Lemma forMiddlewares_first_event (definition : RemoteDefinitionMembers) (kind : Kind)
    (player : Value) (m : NetBuilderMiddleware) (rest : list NetBuilderMiddleware)
    (state : MiddlewareEntry) :
  exists log, snd (forMiddlewares definition kind player (m :: rest) state)
              = EvStage m kind player (CurrentParameters state) :: log.
Proof.
  simpl. destruct (hasFailed _).
  - eexists. reflexivity.
  - unfold bind, tell. destruct (forMiddlewares _ _ _ rest _) as [r log].
    eexists. reflexivity.
Qed.

Lemma onSettled_keeps_result (state : MiddlewareEntry) (result : ThreadResult) :
  is_Some (Result state) \/ mayContinue state = true ->
  is_Some (Result (onSettled state result)).
Proof.
  unfold onSettled. intros H.
  destruct (mayContinue state) eqn:E.
  - destruct result as [[newParams returnFn]|reason]; eexists; reflexivity.
  - destruct H as [H|H]; [exact H | discriminate].
Qed.

(** The loop always comes back with a state, and with a result in it
    once a stage has run. *)
Lemma forMiddlewares_returns (definition : RemoteDefinitionMembers) (kind : Kind)
    (player : Value) (ms : list NetBuilderMiddleware) (state : MiddlewareEntry) :
  exists state' log,
    forMiddlewares definition kind player ms state = (Some state', log)
    /\ (is_Some (Result state) \/ (ms <> [] /\ mayContinue state = true) ->
        is_Some (Result state')).
Proof.
  revert state. induction ms as [|m ms IH]; intros state.
  - exists state, []. split; [reflexivity|]. intros [H|[H _]]; [exact H | congruence].
  - simpl.
    set (state1 := onSettled state _).
    assert (H1 : is_Some (Result state) \/ (m :: ms <> [] /\ mayContinue state = true) ->
                 is_Some (Result state1)).
    { intros H. apply onSettled_keeps_result. tauto. }
    destruct (hasFailed state1).
    + exists state1, [EvStage m kind player (CurrentParameters state)].
      split; [reflexivity | exact H1].
    + destruct (IH state1) as (state' & log & Hrun & Hres).
      exists state', (EvStage m kind player (CurrentParameters state) :: log).
      unfold bind, tell. rewrite Hrun. split; [reflexivity|].
      intros H. apply Hres. left. apply H1, H.
Qed.

(** C8: a stage that accepts replaces the current arguments by the ones
    it supplied, by the empty list when it supplied none, and its
    transform is appended to the transform list; the stage that follows
    is started with these arguments. *)
Theorem accepting_stage_updates_state
    (definition : RemoteDefinitionMembers) (kind : Kind) (player : Value)
    (m : NetBuilderMiddleware) (rest : list NetBuilderMiddleware)
    (state : MiddlewareEntry) (newParams : option (list Value)) (returnFn : ReturnFn) :
  mayContinue state = true ->
  invokeStage definition kind player m (CurrentParameters state) = Ok (newParams, returnFn) ->
  let state' := onSettled state (Ok (newParams, returnFn)) in
  (forall supplied, newParams = Some supplied -> CurrentParameters state' = supplied)
  /\ (newParams = None -> CurrentParameters state' = [])
  /\ ReturnCallbacks state' = ReturnCallbacks state ++ [returnFn]
  /\ Result state' = Some (Ok (newParams, returnFn))
  /\ forMiddlewares definition kind player (m :: rest) state
     = (_ <- tell (EvStage m kind player (CurrentParameters state)) ;;
        forMiddlewares definition kind player rest state')
  /\ (forall m' rest', rest = m' :: rest' ->
        exists log,
          snd (forMiddlewares definition kind player (m :: rest) state)
          = EvStage m kind player (CurrentParameters state)
            :: EvStage m' kind player (default [] newParams) :: log).
Proof.
  intros Hc Hr state'.
  assert (Hs : state' = {| CurrentParameters := default [] newParams;
                           ReturnCallbacks := ReturnCallbacks state ++ [returnFn];
                           Result := Some (Ok (newParams, returnFn)) |})
    by apply (onSettled_accept _ _ _ Hc).
  rewrite Hs. cbn [CurrentParameters ReturnCallbacks Result].
  split; [intros supplied ->; reflexivity|].
  split; [intros ->; reflexivity|].
  split; [reflexivity|]. split; [reflexivity|].
  split; [apply forMiddlewares_accept; assumption|].
  intros m' rest' ->.
  rewrite (forMiddlewares_accept _ _ _ _ _ _ _ _ Hc Hr).
  destruct (forMiddlewares_first_event definition kind player m' rest'
              {| CurrentParameters := default [] newParams;
                 ReturnCallbacks := ReturnCallbacks state ++ [returnFn];
                 Result := Some (Ok (newParams, returnFn)) |}) as [log Hlog].
  unfold bind, tell.
  destruct (forMiddlewares definition kind player (m' :: rest') _) as [r l].
  simpl in Hlog. subst l. exists log. reflexivity.
Qed.

Lemma accepting_stage_updates_state_witness :
  CurrentParameters
    (onSettled {| CurrentParameters := [VNumber 5]; ReturnCallbacks := []; Result := None |}
       (Ok (None, plusOne)))
  = [].
Proof.
  apply (accepting_stage_updates_state (target [] []) Recv (VPlayer 1)
           (stageOf "Late" (lateAccept plusOne)) []
           {| CurrentParameters := [VNumber 5]; ReturnCallbacks := []; Result := None |}
           None plusOne);
    reflexivity.
Defined.

Lemma length_positive (ms1 ms2 : list NetBuilderMiddleware) (m : NetBuilderMiddleware) :
  (0 <? length (ms1 ++ m :: ms2))%nat = true.
Proof. apply Nat.ltb_lt. rewrite length_app. simpl. lia. Qed.

(** C4: when the stages before stage [m] accept and [m] rejects, by a
    call of [drop] or by the timer, the chain ends there: the stages
    started are those up to [m], the arguments and the transforms are
    the ones the accepting stages left, the result is the rejection,
    the receiver answers ERR with the reason without calling the real
    callback, and the sender returns the error, not arguments to send. *)
Theorem rejection_stops_chain
    (rs : RunService) (definition : RemoteDefinitionMembers) (kind : Kind)
    (args : list Value) (ms1 ms2 : list NetBuilderMiddleware) (m : NetBuilderMiddleware)
    (fns : list ReturnFn) (final : list Value) (reason : string) :
  getMiddlewares definition = ms1 ++ m :: ms2 ->
  allAccept definition kind (getPlayerFromArgs rs args) ms1 (resolveParameters rs args)
  = Some (fns, final) ->
  invokeStage definition kind (getPlayerFromArgs rs args) m final = Err reason ->
  exists log,
    checkMiddlewares rs definition kind args
    = (Some {| CurrentParameters := final; ReturnCallbacks := fns;
               Result := Some (Err reason) |}, log)
    /\ stagesStarted log = ms1 ++ [m]
    /\ callbackCalls log = []
    /\ (kind = Recv -> forall callback,
          CreateReceiver rs definition callback args
          = (Some (<["Result" := FString "ERR"]> (<["Message" := FString reason]> ∅)), log))
    /\ (kind = Send ->
          CreateSender rs definition args = (Some (Err reason), log)).
Proof.
  intros Hget Hall Hrej.
  set (init := {| CurrentParameters := resolveParameters rs args;
                  ReturnCallbacks := []; Result := None |}).
  destruct (forMiddlewares_after_accepting definition kind (getPlayerFromArgs rs args)
              ms1 (m :: ms2) init fns final Hall eq_refl)
    as (res & log1 & Hc1 & _ & _ & _ & Hst & Hcb & _ & Hrun).
  cbn [init CurrentParameters ReturnCallbacks Result app] in Hc1, Hrun.
  rewrite (forMiddlewares_reject _ _ _ _ _ _ reason Hc1 Hrej) in Hrun.
  cbn [CurrentParameters ReturnCallbacks] in Hrun.
  exists (log1 ++ [EvStage m kind (getPlayerFromArgs rs args) final]).
  assert (Hcheck : checkMiddlewares rs definition kind args
                   = (Some {| CurrentParameters := final; ReturnCallbacks := fns;
                              Result := Some (Err reason) |},
                      log1 ++ [EvStage m kind (getPlayerFromArgs rs args) final])).
  { unfold checkMiddlewares. rewrite Hget. exact Hrun. }
  split; [exact Hcheck|].
  split; [unfold stagesStarted in *; rewrite omap_app, Hst; reflexivity|].
  split; [unfold callbackCalls in *; rewrite omap_app, Hcb; reflexivity|].
  split.
  - intros -> callback. unfold CreateReceiver.
    rewrite Hget, length_positive, Hcheck. unfold bind, ret. simpl.
    rewrite app_nil_r. reflexivity.
  - intros ->. unfold CreateSender.
    rewrite Hget, length_positive, Hcheck. unfold bind, ret. simpl.
    rewrite app_nil_r. reflexivity.
Qed.

Lemma rejection_stops_chain_witness :
  exists log,
    checkMiddlewares server
      (target [stage "a"; stageOf "b" (rejecting "no")] [stage "c"]) Recv
      [VPlayer 1; VNumber 5]
    = (Some {| CurrentParameters := [VNumber 5]; ReturnCallbacks := [fun r => r];
               Result := Some (Err "no") |}, log)
    /\ stagesStarted log = [stage "a"] ++ [stageOf "b" (rejecting "no")]
    /\ callbackCalls log = []
    /\ (Recv = Recv -> forall callback,
          CreateReceiver server
            (target [stage "a"; stageOf "b" (rejecting "no")] [stage "c"]) callback
            [VPlayer 1; VNumber 5]
          = (Some (<["Result" := FString "ERR"]> (<["Message" := FString "no"]> ∅)), log))
    /\ (Recv = Send ->
          CreateSender server
            (target [stage "a"; stageOf "b" (rejecting "no")] [stage "c"])
            [VPlayer 1; VNumber 5]
          = (Some (Err "no"), log)).
Proof.
  apply (rejection_stops_chain server
           (target [stage "a"; stageOf "b" (rejecting "no")] [stage "c"]) Recv
           [VPlayer 1; VNumber 5] [stage "a"] [stage "c"] (stageOf "b" (rejecting "no"))
           [fun r => r] [VNumber 5] "no");
    reflexivity.
Defined.

(** The same with a stage that the timer rejects, in the Send direction. *)
Example timed_out_stage_stops_sender :
  CreateSender client (target [stageOf "quiet" silent; stage "c"] []) [VNumber 5]
  = (Some (Err "[Ping] middleware processing has timed out. (60s)"),
     [EvStage (stageOf "quiet" silent) Send (VPlayer 7) [VNumber 5]]).
Proof. reflexivity. Qed.

Lemma reduce_nested (fns : list ReturnFn) (v : Value) : reduce fns v = nested fns v.
Proof. unfold reduce, nested. rewrite fold_left_rev_right. reflexivity. Qed.

Lemma nested_snoc (fns : list ReturnFn) (fn : ReturnFn) (v : Value) :
  nested (fns ++ [fn]) v = fn (nested fns v).
Proof. unfold nested. rewrite rev_app_distr. reflexivity. Qed.

(** C5: when every stage of a non-empty chain accepts, with the
    transforms [fns] in chain order, the receiver answers OK with
    stageN(...stage1(x)) for the value [x] the real callback returned,
    and the sender returns a transform that maps every [v] to
    stageN(...stage1(v)); each stage contributes one transform. *)
Theorem transforms_fold_in_acceptance_order
    (rs : RunService) (definition : RemoteDefinitionMembers) (args : list Value) :
  getMiddlewares definition <> [] ->
  let player := getPlayerFromArgs rs args in
  (forall callback fns final,
      allAccept definition Recv player (getMiddlewares definition)
        (resolveParameters rs args) = Some (fns, final) ->
      let actual := if IsServer rs then player :: final else final in
      length fns = length (getMiddlewares definition)
      /\ exists log,
           CreateReceiver rs definition callback args
           = (Some (<["Result" := FString "OK"]>
                      (<["Value" := FValue (nested fns (callback actual))]> ∅)), log)
           /\ stagesStarted log = getMiddlewares definition
           /\ callbackCalls log = [actual])
  /\ (forall fns final,
        allAccept definition Send player (getMiddlewares definition)
          (resolveParameters rs args) = Some (fns, final) ->
        length fns = length (getMiddlewares definition)
        /\ exists log returnFn,
             CreateSender rs definition args = (Some (Ok (final, returnFn)), log)
             /\ (forall v, returnFn v = nested fns v)
             /\ (forall fns' fn v, fns = fns' ++ [fn] -> returnFn v = fn (nested fns' v))
             /\ stagesStarted log = getMiddlewares definition).
Proof.
  intros Hne player.
  assert (Hpos : (0 <? length (getMiddlewares definition))%nat = true).
  { apply Nat.ltb_lt. destruct (getMiddlewares definition); [congruence | simpl; lia]. }
  set (init := {| CurrentParameters := resolveParameters rs args;
                  ReturnCallbacks := []; Result := None |}).
  split.
  - intros callback fns final Hall actual.
    destruct (forMiddlewares_after_accepting definition Recv player
                (getMiddlewares definition) [] init fns final Hall eq_refl)
      as (res & log1 & _ & _ & Hres & Hlen & Hst & Hcb & _ & Hrun).
    destruct (Hres Hne) as [accepted ->].
    cbn [init ReturnCallbacks app forMiddlewares ret] in Hrun.
    rewrite !app_nil_r in Hrun.
    split; [exact Hlen|].
    exists (log1 ++ [EvCallback actual]).
    split.
    + unfold CreateReceiver, checkMiddlewares. rewrite Hpos.
      fold player. fold init. rewrite Hrun.
      unfold bind, executeFn, bind, tell, ret. cbn [Result CurrentParameters ReturnCallbacks].
      fold actual. rewrite reduce_nested. reflexivity.
    + unfold stagesStarted, callbackCalls in *. rewrite !omap_app, Hst, Hcb.
      simpl. rewrite app_nil_r. split; reflexivity.
  - intros fns final Hall.
    destruct (forMiddlewares_after_accepting definition Send player
                (getMiddlewares definition) [] init fns final Hall eq_refl)
      as (res & log1 & _ & _ & Hres & Hlen & Hst & Hcb & _ & Hrun).
    destruct (Hres Hne) as [accepted ->].
    cbn [init ReturnCallbacks app forMiddlewares ret] in Hrun.
    rewrite !app_nil_r in Hrun.
    split; [exact Hlen|].
    exists log1, (fun r => reduce fns r).
    split.
    + unfold CreateSender, checkMiddlewares. rewrite Hpos.
      fold player. fold init. rewrite Hrun.
      unfold bind, ret. simpl. rewrite app_nil_r. reflexivity.
    + split; [intros v; apply reduce_nested|].
      split; [|exact Hst].
      intros fns' fn v ->. rewrite reduce_nested. apply nested_snoc.
Qed.

Lemma transforms_fold_in_acceptance_order_witness :
  exists log,
    CreateReceiver server
      (target [stageOf "one" (transforming plusOne); stageOf "two" (transforming double)] [])
      countArgs [VPlayer 1; VNumber 5; VNumber 6]
    = (Some (<["Result" := FString "OK"]> (<["Value" := FValue (VNumber 8)]> ∅)), log).
Proof.
  destruct (transforms_fold_in_acceptance_order server
              (target [stageOf "one" (transforming plusOne);
                       stageOf "two" (transforming double)] [])
              [VPlayer 1; VNumber 5; VNumber 6] ltac:(discriminate)) as [Hrecv _].
  destruct (Hrecv countArgs [plusOne; double] [VNumber 5; VNumber 6] eq_refl)
    as (_ & log & Hrun & _).
  exists log. exact Hrun.
Defined.

(** The order matters: the first transform is applied first. *)
Example receiver_applies_first_transform_first :
  CreateReceiver server
    (target [stageOf "one" (transforming plusOne); stageOf "two" (transforming double)] [])
    countArgs [VPlayer 1; VNumber 5; VNumber 6]
  = (Some (<["Result" := FString "OK"]> (<["Value" := FValue (VNumber 8)]> ∅)),
     [EvStage (stageOf "one" (transforming plusOne)) Recv (VPlayer 1) [VNumber 5; VNumber 6];
      EvStage (stageOf "two" (transforming double)) Recv (VPlayer 1) [VNumber 5; VNumber 6];
      EvCallback [VPlayer 1; VNumber 5; VNumber 6]]).
Proof. reflexivity. Qed.

(** ** Caller identity *)

(** C6: on the delivering side (the server) the caller identity is the
    first raw argument, and the first stage is started with that
    identity and the arguments without it; on the originating side (the
    client) the identity is the local player and the first stage is
    started with all the arguments.  This holds for either direction of
    the chain. *)
Theorem caller_identity_by_side
    (rs : RunService) (definition : RemoteDefinitionMembers) (kind : Kind)
    (args : list Value) (m : NetBuilderMiddleware) (rest : list NetBuilderMiddleware) :
  getMiddlewares definition = m :: rest ->
  (IsServer rs = true -> IsClient rs = false ->
     getPlayerFromArgs rs args = hd VUndefined args
     /\ resolveParameters rs args = tl args
     /\ exists log, snd (checkMiddlewares rs definition kind args)
                    = EvStage m kind (hd VUndefined args) (tl args) :: log)
  /\ (IsClient rs = true -> IsServer rs = false ->
        getPlayerFromArgs rs args = LocalPlayer rs
        /\ resolveParameters rs args = args
        /\ exists log, snd (checkMiddlewares rs definition kind args)
                       = EvStage m kind (LocalPlayer rs) args :: log).
Proof.
  intros Hget.
  destruct (forMiddlewares_first_event definition kind (getPlayerFromArgs rs args) m rest
              {| CurrentParameters := resolveParameters rs args;
                 ReturnCallbacks := []; Result := None |}) as [log Hlog].
  unfold checkMiddlewares. rewrite Hget, Hlog.
  unfold getPlayerFromArgs, resolveParameters. cbn [CurrentParameters].
  split; intros -> ->; (split; [reflexivity|]); (split; [reflexivity|]);
    exists log; reflexivity.
Qed.

Lemma caller_identity_by_side_witness :
  (exists log,
      snd (checkMiddlewares server (target [stage "a"] []) Recv [VPlayer 1; VNumber 5])
      = EvStage (stage "a") Recv (VPlayer 1) [VNumber 5] :: log)
  /\ (exists log,
        snd (checkMiddlewares client (target [stage "a"] []) Send [VNumber 5])
        = EvStage (stage "a") Send (VPlayer 7) [VNumber 5] :: log).
Proof.
  split.
  - destruct (caller_identity_by_side server (target [stage "a"] []) Recv
                [VPlayer 1; VNumber 5] (stage "a") [] eq_refl) as [Hs _].
    destruct (Hs eq_refl eq_refl) as (_ & _ & H). exact H.
  - destruct (caller_identity_by_side client (target [stage "a"] []) Send
                [VNumber 5] (stage "a") [] eq_refl) as [_ Hc].
    destruct (Hc eq_refl eq_refl) as (_ & _ & H). exact H.
Defined.

(** The side decides, not the direction: a chain sent from the server
    takes its identity from the first argument as well. *)
Example server_sender_takes_first_argument :
  snd (checkMiddlewares server (target [stage "a"] []) Send [VPlayer 1; VNumber 5])
  = [EvStage (stage "a") Send (VPlayer 1) [VNumber 5]].
Proof. reflexivity. Qed.

(** ** Empty chain *)

Lemma empty_chain_sender (rs : RunService) (definition : RemoteDefinitionMembers)
    (args : list Value) :
  getMiddlewares definition = [] ->
  CreateSender rs definition args = (Some (Ok (args, fun r => r)), []).
Proof. intros Hget. unfold CreateSender. rewrite Hget. reflexivity. Qed.

Lemma empty_chain_receiver_on_client (rs : RunService)
    (definition : RemoteDefinitionMembers) (callback : list Value -> Value)
    (args : list Value) :
  getMiddlewares definition = [] ->
  IsServer rs = false ->
  CreateReceiver rs definition callback args
  = (Some (<["Result" := FString "OK"]> (<["Value" := FValue (callback args)]> ∅)),
     [EvCallback args]).
Proof.
  intros Hget Hs. unfold CreateReceiver, executeFn. rewrite Hget, Hs. reflexivity.
Qed.

(** C7: with an empty chain on the server, the receiver calls the real
    callback with the caller identity followed by all the raw
    arguments, the identity among them: the identity comes twice. *)
Theorem empty_chain_receiver_repeats_identity
    (rs : RunService) (definition : RemoteDefinitionMembers)
    (callback : list Value -> Value) (player : Value) (rest : list Value) :
  getMiddlewares definition = [] ->
  IsServer rs = true -> IsClient rs = false ->
  CreateReceiver rs definition callback (player :: rest)
  = (Some (<["Result" := FString "OK"]>
             (<["Value" := FValue (callback (player :: player :: rest))]> ∅)),
     [EvCallback (player :: player :: rest)]).
Proof.
  intros Hget Hs Hc.
  unfold CreateReceiver, executeFn, getPlayerFromArgs. rewrite Hget, Hs, Hc. reflexivity.
Qed.

Lemma empty_chain_receiver_repeats_identity_witness :
  CreateReceiver server (target [] []) countArgs [VPlayer 1; VNumber 5]
  = (Some (<["Result" := FString "OK"]> (<["Value" := FValue (VNumber 3)]> ∅)),
     [EvCallback [VPlayer 1; VPlayer 1; VNumber 5]]).
Proof.
  apply (empty_chain_receiver_repeats_identity server (target [] []) countArgs
           (VPlayer 1) [VNumber 5]); reflexivity.
Defined.

(** The sibling path: one stage that hands the arguments on, and the
    callback gets the identity once. *)
Example passThrough_chain_receiver_on_server :
  CreateReceiver server (target [stage "a"] []) countArgs [VPlayer 1; VNumber 5]
  = (Some (<["Result" := FString "OK"]> (<["Value" := FValue (VNumber 2)]> ∅)),
     [EvStage (stage "a") Recv (VPlayer 1) [VNumber 5];
      EvCallback [VPlayer 1; VNumber 5]]).
Proof. reflexivity. Qed.

(** ** Reading a receiver's answer *)

Lemma checkMiddlewares_returns (rs : RunService) (definition : RemoteDefinitionMembers)
    (kind : Kind) (args : list Value) :
  exists state log,
    checkMiddlewares rs definition kind args = (Some state, log)
    /\ (getMiddlewares definition <> [] -> is_Some (Result state)).
Proof.
  unfold checkMiddlewares.
  destruct (forMiddlewares_returns definition kind (getPlayerFromArgs rs args)
              (getMiddlewares definition)
              {| CurrentParameters := resolveParameters rs args;
                 ReturnCallbacks := []; Result := None |})
    as (state & log & Hrun & Hres).
  exists state, log. split; [exact Hrun|].
  intros Hne. apply Hres. right. split; [exact Hne | reflexivity].
Qed.

Lemma rustResult_without_Type (v : NetBuilderResult) :
  v !! "Type" = None -> rustResult v = Err (v !! "Message").
Proof. unfold rustResult. intros ->. reflexivity. Qed.

(** C9: a receiver always answers, and whatever it answers, OK or ERR,
    has no field [Type], so [rustResult] reads it as an error and never
    as Ok. *)
Theorem receiver_answers_read_as_errors
    (rs : RunService) (definition : RemoteDefinitionMembers)
    (callback : list Value -> Value) (args : list Value) :
  exists answer log,
    CreateReceiver rs definition callback args = (Some answer, log)
    /\ (answer !! "Result" = Some (FString "OK")
        \/ answer !! "Result" = Some (FString "ERR"))
    /\ answer !! "Type" = None
    /\ rustResult answer = Err (answer !! "Message")
    /\ Result.isOk (rustResult answer) = false.
Proof.
  assert (Hfinish : forall answer : NetBuilderResult,
             answer !! "Type" = None ->
             answer !! "Type" = None
             /\ rustResult answer = Err (answer !! "Message")
             /\ Result.isOk (rustResult answer) = false).
  { intros answer H. rewrite (rustResult_without_Type _ H). repeat split. exact H. }
  unfold CreateReceiver.
  destruct (0 <? length (getMiddlewares definition))%nat eqn:Hlen.
  - destruct (checkMiddlewares_returns rs definition Recv args)
      as (state & log & Hrun & Hres).
    rewrite Hrun. unfold bind.
    destruct Hres as [result Hresult].
    { intros Hnil. rewrite Hnil in Hlen. discriminate. }
    rewrite Hresult. destruct result as [accepted|message].
    + unfold executeFn, bind, tell, ret. eexists _, _. split; [reflexivity|].
      split; [left; reflexivity|]. apply Hfinish. reflexivity.
    + unfold ret. eexists _, _. split; [reflexivity|].
      split; [right; reflexivity|]. apply Hfinish. reflexivity.
  - unfold executeFn, bind, tell, ret. eexists _, _. split; [reflexivity|].
    split; [left; reflexivity|]. apply Hfinish. reflexivity.
Qed.

(** * Further properties of the resolver *)

(** ** Stage registry *)

Lemma sameLabel_false (m1 m2 : NetBuilderMiddleware) :
  sameLabel m1 m2 = false <-> Label m1 <> Label m2 \/ Label m1 = "Unknown".
Proof.
  split.
  - intros H. destruct (decide (Label m1 = Label m2)) as [E|E]; [|left; exact E].
    destruct (decide (Label m1 = "Unknown")) as [U|U]; [right; exact U|].
    assert (sameLabel m1 m2 = true) by (apply sameLabel_true; split; assumption).
    congruence.
  - intros H. destruct (sameLabel m1 m2) eqn:E; [|reflexivity].
    apply sameLabel_true in E. tauto.
Qed.

Lemma dedupBy_from_sublist (kept : NetBuilderMiddleware) (l : list NetBuilderMiddleware) :
  dedupBy_from sameLabel kept l `sublist_of` l.
Proof.
  revert kept. induction l as [|x l IH]; intros kept; simpl; [constructor|].
  destruct (sameLabel x kept).
  - apply sublist_cons, IH.
  - apply sublist_skip, IH.
Qed.

(** The resolved chain is the concatenation of the target stages and
    the global stages with some stages left out, in the same order; its
    first stage is the first stage of the concatenation, and it is empty
    only when the target has no stage and the namespace none either. *)
Theorem getMiddlewares_sublist (definition : RemoteDefinitionMembers) :
  getMiddlewares definition `sublist_of` (Middlewares definition ++ GlobalMiddleware definition)
  /\ head (getMiddlewares definition)
     = head (Middlewares definition ++ GlobalMiddleware definition)
  /\ (getMiddlewares definition = []
      <-> Middlewares definition = [] /\ GlobalMiddleware definition = []).
Proof.
  unfold getMiddlewares, dedupBy.
  destruct (Middlewares definition ++ GlobalMiddleware definition) as [|x l] eqn:E.
  - split; [constructor|]. split; [reflexivity|].
    split; [intros _; apply app_eq_nil, E | reflexivity].
  - split; [apply sublist_skip, dedupBy_from_sublist|]. split; [reflexivity|].
    split; [discriminate|]. intros [H1 H2]. rewrite H1, H2 in E. discriminate.
Qed.

Lemma neighboursDiffer_lookup (kept : NetBuilderMiddleware) (l : list NetBuilderMiddleware) :
  neighboursDiffer kept l -> adjacentDistinct (kept :: l).
Proof.
  revert kept. induction l as [|x l IH]; intros kept H i m1 m2 H1 H2.
  - destruct i; discriminate.
  - destruct H as [Hx Hrest]. destruct i as [|i].
    + simpl in H1, H2. injection H1 as <-. injection H2 as <-.
      apply sameLabel_false, Hx.
    + exact (IH x Hrest i m1 m2 H1 H2).
Qed.

Lemma lookup_neighboursDiffer (kept : NetBuilderMiddleware) (l : list NetBuilderMiddleware) :
  adjacentDistinct (kept :: l) -> neighboursDiffer kept l.
Proof.
  revert kept. induction l as [|x l IH]; intros kept H; simpl; [exact I|].
  split.
  - apply sameLabel_false. exact (H 0 kept x eq_refl eq_refl).
  - apply IH. intros i m1 m2 H1 H2. exact (H (S i) m1 m2 H1 H2).
Qed.

Lemma dedupBy_from_fixed (kept : NetBuilderMiddleware) (l : list NetBuilderMiddleware) :
  neighboursDiffer kept l -> dedupBy_from sameLabel kept l = l.
Proof.
  revert kept. induction l as [|x l IH]; intros kept H; [reflexivity|].
  destruct H as [Hx Hrest]. simpl. rewrite Hx. f_equal. apply IH, Hrest.
Qed.

Lemma dedupBy_adjacentDistinct (l : list NetBuilderMiddleware) :
  adjacentDistinct (dedupBy sameLabel l).
Proof.
  destruct l as [|x l]; simpl.
  - intros i m1 m2 H. destruct i; discriminate.
  - apply neighboursDiffer_lookup, dedupBy_from_neighbours.
Qed.

(** Two stages that follow each other in the resolved chain never share
    a label, unless that label is "Unknown". *)
Theorem getMiddlewares_neighbours_differ
    (definition : RemoteDefinitionMembers) (i : nat) (m1 m2 : NetBuilderMiddleware) :
  getMiddlewares definition !! i = Some m1 ->
  getMiddlewares definition !! S i = Some m2 ->
  Label m2 <> Label m1 \/ Label m2 = "Unknown".
Proof. apply dedupBy_adjacentDistinct. Qed.

Lemma getMiddlewares_neighbours_differ_witness :
  "y" <> "x" \/ "y" = "Unknown".
Proof.
  exact (getMiddlewares_neighbours_differ
           (target [stage "x"; stage "x"; stage "y"] [stage "x"]) 0
           (stage "x") (stage "y") eq_refl eq_refl).
Defined.

(** The registry leaves the concatenation as it is exactly when no two
    stages that stand next to each other in it share a label other than
    "Unknown". *)
Theorem getMiddlewares_unchanged_iff (definition : RemoteDefinitionMembers) :
  getMiddlewares definition = Middlewares definition ++ GlobalMiddleware definition
  <-> adjacentDistinct (Middlewares definition ++ GlobalMiddleware definition).
Proof.
  unfold getMiddlewares. split.
  - intros <-. apply dedupBy_adjacentDistinct.
  - destruct (Middlewares definition ++ GlobalMiddleware definition) as [|x l];
      [reflexivity|].
    intros H. simpl. f_equal. apply dedupBy_from_fixed, lookup_neighboursDiffer, H.
Qed.

(** Resolving twice changes nothing: the chain of a target whose own
    stages are an already resolved chain, with no global stage, is that
    chain. *)
Theorem getMiddlewares_idempotent (definition : RemoteDefinitionMembers) :
  getMiddlewares
    {| Id := Id definition; Info := Info definition;
       Middlewares := getMiddlewares definition; GlobalMiddleware := [] |}
  = getMiddlewares definition.
Proof.
  unfold getMiddlewares at 1. cbn [Middlewares GlobalMiddleware].
  rewrite app_nil_r. unfold getMiddlewares.
  destruct (Middlewares definition ++ GlobalMiddleware definition) as [|x l];
    [reflexivity|].
  simpl. f_equal. apply dedupBy_from_fixed, dedupBy_from_neighbours.
Qed.

Lemma dedupBy_from_filter_Unknown (kept : NetBuilderMiddleware)
    (l : list NetBuilderMiddleware) :
  filter (fun m => Label m = "Unknown") (dedupBy_from sameLabel kept l)
  = filter (fun m => Label m = "Unknown") l.
Proof.
  revert kept. induction l as [|x l IH]; intros kept; [reflexivity|]. simpl.
  destruct (sameLabel x kept) eqn:E.
  - apply sameLabel_true in E. destruct E as [_ Hx].
    rewrite filter_cons_False by exact Hx. apply IH.
  - rewrite !filter_cons. rewrite IH. reflexivity.
Qed.

(** Every stage labelled "Unknown" reaches the chain, as often as it
    is listed and in the order it is listed, wherever it stands. *)
Theorem getMiddlewares_keeps_every_Unknown (definition : RemoteDefinitionMembers) :
  filter (fun m => Label m = "Unknown") (getMiddlewares definition)
  = filter (fun m => Label m = "Unknown")
      (Middlewares definition ++ GlobalMiddleware definition).
Proof.
  unfold getMiddlewares.
  destruct (Middlewares definition ++ GlobalMiddleware definition) as [|x l];
    [reflexivity|].
  simpl. rewrite !filter_cons, dedupBy_from_filter_Unknown. reflexivity.
Qed.

(** ** Stage channel: the race between the body and the timer *)

Lemma runBody_quiet_clock (definition : RemoteDefinitionMembers) (ops : list StageOp)
    (s : Invocation) :
  Forall (fun op => isContinuationCall op = false) ops ->
  clock (runBody definition ops s) = clock s + waited ops
  /\ suspended (runBody definition ops s) = suspended s.
Proof.
  revert s. induction ops as [|op ops IH]; intros s Hall.
  - simpl. split; [lia | reflexivity].
  - inversion Hall as [|? ? Hop Hrest]; subst.
    destruct op as [args returnFn|reason|d|tag]; simpl in Hop; try discriminate; simpl.
    + destruct (IH (elapse definition d (logOp (OpWait d) s)) Hrest) as [H1 H2].
      rewrite H1, H2. unfold elapse. destruct (_ && _); simpl; split; lia || reflexivity.
    + destruct (IH (logOp (OpEffect tag) s) Hrest) as [H1 H2].
      rewrite H1, H2. split; reflexivity.
Qed.

Lemma runBody_app_quiet (definition : RemoteDefinitionMembers) (pre rest : list StageOp)
    (s : Invocation) :
  Forall (fun op => isContinuationCall op = false) pre ->
  runBody definition (pre ++ rest) s = runBody definition rest (runBody definition pre s).
Proof.
  revert s. induction pre as [|op pre IH]; intros s Hall; [reflexivity|].
  inversion Hall as [|? ? Hop Hrest]; subst.
  destruct op as [args returnFn|reason|d|tag]; simpl in Hop; try discriminate; simpl;
    apply IH, Hrest.
Qed.

(** Once the channel is closed and the body is not parked, the body
    runs to its end and leaves the channel alone. *)
Lemma runBody_after_close (definition : RemoteDefinitionMembers) (ops : list StageOp)
    (s : Invocation) :
  isDone (chan s) = true -> suspended s = false ->
  chan (runBody definition ops s) = chan s
  /\ settledAt (runBody definition ops s) = settledAt s
  /\ executed (runBody definition ops s) = executed s ++ ops
  /\ suspended (runBody definition ops s) = false.
Proof.
  revert s. induction ops as [|op ops IH]; intros s Hd Hs.
  - simpl. rewrite app_nil_r. repeat split. exact Hs.
  - assert (Hcall : forall result,
               callContinuation op (close result) s
               = {| chan := chan s; clock := clock s; settledAt := settledAt s;
                    executed := executed s ++ [op]; suspended := false |}).
    { intros result. unfold callContinuation. rewrite (close_done _ _ Hd). reflexivity. }
    destruct op as [args returnFn|reason|d|tag]; simpl.
    + unfold processNext. rewrite Hcall. simpl.
      destruct (IH {| chan := chan s; clock := clock s; settledAt := settledAt s;
                      executed := executed s ++ [OpProcessNext args returnFn];
                      suspended := false |} Hd eq_refl) as (H1 & H2 & H3 & H4).
      rewrite H1, H2, H3, H4. simpl. rewrite <- app_assoc. repeat split.
    + unfold drop. rewrite Hcall. simpl.
      destruct (IH {| chan := chan s; clock := clock s; settledAt := settledAt s;
                      executed := executed s ++ [OpDrop reason];
                      suspended := false |} Hd eq_refl) as (H1 & H2 & H3 & H4).
      rewrite H1, H2, H3, H4. simpl. rewrite <- app_assoc. repeat split.
    + rewrite (elapse_done definition d (logOp (OpWait d) s) Hd).
      destruct (IH {| chan := chan s; clock := clock s + d; settledAt := settledAt s;
                      executed := executed s ++ [OpWait d];
                      suspended := suspended s |} Hd Hs) as (H1 & H2 & H3 & H4).
      simpl in *. rewrite H1, H2, H3, H4. rewrite <- app_assoc. repeat split.
    + destruct (IH (logOp (OpEffect tag) s) Hd Hs) as (H1 & H2 & H3 & H4).
      simpl in *. rewrite H1, H2, H3, H4. rewrite <- app_assoc. repeat split.
Qed.

(** A body that calls a continuation for the first time before the
    timer has elapsed settles the stage with the result of that call,
    at the time the body had waited until then. *)
Theorem call_before_timeout_wins
    (definition : RemoteDefinitionMembers) (channel : MiddlewareCallback)
    (player : Value) (args : list Value) (pre post : list StageOp) (op : StageOp)
    (result : ThreadResult) :
  channel (Id definition) player args = pre ++ op :: post ->
  Forall (fun op => isContinuationCall op = false) pre ->
  callResult op = Some result ->
  waited pre < timeout ->
  let s := createChannel definition channel player args in
  awaitResult definition s = result
  /\ settledAt s = Some (waited pre)
  /\ executed s = pre ++ [op]
  /\ timeoutCancelled (chan s) = 1.
Proof.
  intros Hbody Hquiet Hcall Hlt s.
  unfold s, createChannel. rewrite Hbody, (runBody_app_quiet _ _ _ _ Hquiet).
  assert (H0 : timerOnly definition newInvocation).
  { left. repeat split. unfold timeout. simpl. lia. }
  destruct (silent_runBody definition pre newInvocation Hquiet H0) as [Hs Hex].
  destruct (runBody_quiet_clock definition pre newInvocation Hquiet) as [Hclock Hsusp].
  set (before := runBody definition pre newInvocation) in *.
  simpl in Hclock, Hex, Hsusp.
  destruct Hs as [(Hc & _ & _)|(_ & _ & Ht)]; [|lia].
  destruct op as [a f|reason|d|tag]; simpl in Hcall; try discriminate;
    injection Hcall as <-; simpl.
  - unfold processNext. rewrite callContinuation_suspended, Hc. simpl.
    unfold callContinuation, awaitResult. rewrite Hc, close_open. simpl.
    rewrite Hclock, Hex. repeat split.
  - unfold drop. rewrite callContinuation_suspended, Hc. simpl.
    unfold callContinuation, awaitResult. rewrite Hc, close_open. simpl.
    rewrite Hclock, Hex. repeat split.
Qed.

Lemma call_before_timeout_wins_witness :
  awaitResult (target [] [])
    (createChannel (target [] []) (lateAccept plusOne) (VPlayer 1) [VNumber 5])
  = Ok (None, plusOne).
Proof.
  apply (call_before_timeout_wins (target [] []) (lateAccept plusOne) (VPlayer 1)
           [VNumber 5] [OpEffect 1; OpWait 5] [OpEffect 2] (OpProcessNext None plusOne)
           (Ok (None, plusOne)) eq_refl).
  - repeat constructor.
  - reflexivity.
  - unfold timeout. simpl. lia.
Defined.

(** A body that has waited for [timeout] or longer without calling a
    continuation is settled by the timer: whatever it calls afterwards
    is ignored, the stage is rejected with the timeout message, and the
    body itself is not stopped, it runs to its end. *)
Theorem call_after_timeout_is_ignored
    (definition : RemoteDefinitionMembers) (channel : MiddlewareCallback)
    (player : Value) (args : list Value) (pre rest : list StageOp) :
  channel (Id definition) player args = pre ++ rest ->
  Forall (fun op => isContinuationCall op = false) pre ->
  timeout <= waited pre ->
  let s := createChannel definition channel player args in
  awaitResult definition s = Err (timeoutReason definition)
  /\ settledAt s = Some timeout
  /\ executed s = pre ++ rest
  /\ suspended s = false.
Proof.
  intros Hbody Hquiet Hge s.
  unfold s, createChannel. rewrite Hbody, (runBody_app_quiet _ _ _ _ Hquiet).
  assert (H0 : timerOnly definition newInvocation).
  { left. repeat split. unfold timeout. simpl. lia. }
  destruct (silent_runBody definition pre newInvocation Hquiet H0) as [Hs Hex].
  destruct (runBody_quiet_clock definition pre newInvocation Hquiet) as [Hclock Hsusp].
  set (before := runBody definition pre newInvocation) in *.
  simpl in Hclock, Hex, Hsusp.
  destruct Hs as [(_ & Hlt & _)|(Hc & Hn & _)]; [lia|].
  assert (Hd : isDone (chan before) = true) by (rewrite Hc; reflexivity).
  destruct (runBody_after_close definition rest before Hd Hsusp) as (H1 & H2 & H3 & H4).
  unfold awaitResult. rewrite H1, H2, H3, H4, Hc, Hn, Hex. repeat split.
Qed.

Lemma call_after_timeout_is_ignored_witness :
  awaitResult (target [] [])
    (createChannel (target [] [])
       (fun _ _ _ => [OpWait 60; OpProcessNext None plusOne; OpEffect 2])
       (VPlayer 1) [])
  = Err "[Ping] middleware processing has timed out. (60s)".
Proof.
  apply (call_after_timeout_is_ignored (target [] [])
           (fun _ _ _ => [OpWait 60; OpProcessNext None plusOne; OpEffect 2])
           (VPlayer 1) [] [OpWait 60] [OpProcessNext None plusOne; OpEffect 2] eq_refl).
  - repeat constructor.
  - unfold timeout. simpl. lia.
Defined.

(** ** Chain executor: what every run looks like *)

Lemma forMiddlewares_shape (definition : RemoteDefinitionMembers) (kind : Kind)
    (player : Value) (ms : list NetBuilderMiddleware) (state : MiddlewareEntry) :
  mayContinue state = true ->
  exists state' log,
    forMiddlewares definition kind player ms state = (Some state', log)
    /\ stagesStarted log `prefix_of` ms
    /\ (hasFailed state' = false -> stagesStarted log = ms)
    /\ callbackCalls log = []
    /\ Forall (fun e => exists m args, e = EvStage m kind player args) log
    /\ length (ReturnCallbacks state') + (if hasFailed state' then 1 else 0)
       = length (ReturnCallbacks state) + length log
    /\ (Result state' = None <-> ms = [] /\ Result state = None)
    /\ match allAccept definition kind player ms (CurrentParameters state) with
       | Some (fns, final) =>
           hasFailed state' = false
           /\ CurrentParameters state' = final
           /\ ReturnCallbacks state' = ReturnCallbacks state ++ fns
       | None => exists reason, Result state' = Some (Err reason)
       end.
Proof.
  revert state. induction ms as [|m ms IH]; intros state Hc.
  - exists state, []. simpl. rewrite app_nil_r.
    assert (Hf : hasFailed state = false).
    { unfold mayContinue, hasFailed in *. destruct (Result state) as [[|]|];
        simpl in *; congruence. }
    rewrite Hf. split; [reflexivity|]. split; [reflexivity|]. split; [reflexivity|].
    split; [reflexivity|]. split; [constructor|]. split; [simpl; lia|].
    split; [tauto|]. repeat split.
  - simpl.
    destruct (invokeStage definition kind player m (CurrentParameters state))
      as [[newParams returnFn]|reason] eqn:Hr.
    + rewrite (onSettled_accept _ _ _ Hc). cbn [hasFailed Result Result.isErr].
      destruct (IH {| CurrentParameters := default [] newParams;
                      ReturnCallbacks := ReturnCallbacks state ++ [returnFn];
                      Result := Some (Ok (newParams, returnFn)) |} eq_refl)
        as (state' & log & Hrun & Hpre & Hall & Hcb & Hev & Hlen & Hnone & Hacc).
      cbn [CurrentParameters ReturnCallbacks Result] in *.
      exists state', (EvStage m kind player (CurrentParameters state) :: log).
      unfold bind, tell. rewrite Hrun.
      split; [reflexivity|].
      split; [simpl; apply prefix_cons, Hpre|].
      split; [intros Hf; simpl; f_equal; apply Hall, Hf|].
      split; [exact Hcb|].
      split; [constructor; [eexists _, _; reflexivity | exact Hev]|].
      split; [rewrite length_app in Hlen; simpl in *; lia|].
      split.
      { split; [|intros [? _]; discriminate].
        intros Hn. apply Hnone in Hn. destruct Hn as [_ Hn]. discriminate. }
      destruct (allAccept definition kind player ms (default [] newParams))
        as [[fns final]|]; [|exact Hacc].
      destruct Hacc as (H1 & H2 & H3). rewrite <- app_assoc in H3.
      repeat split; assumption.
    + rewrite (onSettled_reject _ _ Hc). cbn [hasFailed Result Result.isErr].
      eexists _, _. split; [reflexivity|].
      cbn [CurrentParameters ReturnCallbacks Result hasFailed Result.isErr].
      split; [simpl; apply prefix_cons, prefix_nil|].
      split; [discriminate|]. split; [reflexivity|].
      split; [constructor; [eexists _, _; reflexivity | constructor]|].
      split; [simpl; lia|].
      split; [split; [discriminate | intros [? _]; discriminate]|].
      eexists. reflexivity.
Qed.

Lemma checkMiddlewares_run
    (rs : RunService) (definition : RemoteDefinitionMembers) (kind : Kind)
    (args : list Value) :
  exists state log,
    checkMiddlewares rs definition kind args = (Some state, log)
    /\ stagesStarted log `prefix_of` getMiddlewares definition
    /\ (hasFailed state = false -> stagesStarted log = getMiddlewares definition)
    /\ callbackCalls log = []
    /\ (Result state = None <-> getMiddlewares definition = [])
    /\ match allAccept definition kind (getPlayerFromArgs rs args)
               (getMiddlewares definition) (resolveParameters rs args) with
       | Some (fns, final) =>
           hasFailed state = false
           /\ CurrentParameters state = final
           /\ ReturnCallbacks state = fns
       | None => exists reason, Result state = Some (Err reason)
       end.
Proof.
  destruct (forMiddlewares_shape definition kind (getPlayerFromArgs rs args)
              (getMiddlewares definition)
              {| CurrentParameters := resolveParameters rs args;
                 ReturnCallbacks := []; Result := None |} eq_refl)
    as (state & log & Hrun & Hpre & Hall & Hcb & _ & _ & Hnone & Hacc).
  exists state, log. unfold checkMiddlewares.
  split; [exact Hrun|]. split; [exact Hpre|]. split; [exact Hall|].
  split; [exact Hcb|]. split; [rewrite Hnone; cbn [Result]; tauto|].
  exact Hacc.
Qed.


(** The chain fails exactly when one of its stages rejects the
    arguments the stages before it left; otherwise the state holds the
    arguments of the last stage and the transforms of all of them. *)
Theorem checkMiddlewares_fails_iff_a_stage_rejects
    (rs : RunService) (definition : RemoteDefinitionMembers) (kind : Kind)
    (args : list Value) :
  exists state log,
    checkMiddlewares rs definition kind args = (Some state, log)
    /\ (hasFailed state = true
        <-> allAccept definition kind (getPlayerFromArgs rs args)
              (getMiddlewares definition) (resolveParameters rs args) = None)
    /\ (forall fns final,
          allAccept definition kind (getPlayerFromArgs rs args)
            (getMiddlewares definition) (resolveParameters rs args) = Some (fns, final) ->
          CurrentParameters state = final /\ ReturnCallbacks state = fns).
Proof.
  destruct (forMiddlewares_shape definition kind (getPlayerFromArgs rs args)
              (getMiddlewares definition)
              {| CurrentParameters := resolveParameters rs args;
                 ReturnCallbacks := []; Result := None |} eq_refl)
    as (state & log & Hrun & _ & _ & _ & _ & _ & _ & Hacc).
  exists state, log. unfold checkMiddlewares. split; [exact Hrun|].
  cbn [CurrentParameters ReturnCallbacks] in Hacc.
  destruct (allAccept definition kind (getPlayerFromArgs rs args)
              (getMiddlewares definition) (resolveParameters rs args))
    as [[fns final]|].
  - destruct Hacc as (H1 & H2 & H3). split.
    + rewrite H1. split; discriminate.
    + intros fns' final' [= <- <-]. split; assumption.
  - destruct Hacc as [reason Hres]. split.
    + unfold hasFailed. rewrite Hres. split; reflexivity.
    + intros fns final [=].
Qed.

Lemma invokeStage_direction (definition : RemoteDefinitionMembers) (player : Value)
    (m : NetBuilderMiddleware) (args : list Value) :
  MSend m (Id definition) player args = MRecv m (Id definition) player args ->
  invokeStage definition Send player m args = invokeStage definition Recv player m args.
Proof.
  intros H. unfold invokeStage, createChannel. simpl. rewrite H. reflexivity.
Qed.

Lemma forMiddlewares_direction (definition : RemoteDefinitionMembers) (player : Value)
    (ms : list NetBuilderMiddleware) (state : MiddlewareEntry) :
  Forall (fun m => forall args,
            MSend m (Id definition) player args = MRecv m (Id definition) player args) ms ->
  fst (forMiddlewares definition Send player ms state)
  = fst (forMiddlewares definition Recv player ms state)
  /\ stagesStarted (snd (forMiddlewares definition Send player ms state))
     = stagesStarted (snd (forMiddlewares definition Recv player ms state)).
Proof.
  revert state. induction ms as [|m ms IH]; intros state Hall; [split; reflexivity|].
  inversion Hall as [|? ? Hm Hrest]; subst. simpl.
  rewrite (invokeStage_direction _ _ _ _ (Hm (CurrentParameters state))).
  set (state1 := onSettled state _).
  destruct (hasFailed state1); [split; reflexivity|].
  destruct (IH state1 Hrest) as [H1 H2].
  unfold bind, tell.
  destruct (forMiddlewares definition Send player ms state1) as [r1 l1].
  destruct (forMiddlewares definition Recv player ms state1) as [r2 l2].
  simpl in *. subst r2. rewrite H2. split; reflexivity.
Qed.

(** When every stage of the chain does the same on sending and on
    receiving (as a server-only middleware does, whose two callbacks are
    one function), the chain ends in the same state in both directions,
    after the same stages. *)
Theorem checkMiddlewares_same_in_both_directions
    (rs : RunService) (definition : RemoteDefinitionMembers) (args : list Value) :
  Forall (fun m => forall stageArgs,
            MSend m (Id definition) (getPlayerFromArgs rs args) stageArgs
            = MRecv m (Id definition) (getPlayerFromArgs rs args) stageArgs)
    (getMiddlewares definition) ->
  fst (checkMiddlewares rs definition Send args)
  = fst (checkMiddlewares rs definition Recv args)
  /\ stagesStarted (snd (checkMiddlewares rs definition Send args))
     = stagesStarted (snd (checkMiddlewares rs definition Recv args)).
Proof. intros Hall. unfold checkMiddlewares. apply forMiddlewares_direction, Hall. Qed.

Lemma checkMiddlewares_same_in_both_directions_witness :
  fst (checkMiddlewares server (target [stage "a"; stageOf "b" (rejecting "no")] [])
         Send [VPlayer 1; VNumber 5])
  = fst (checkMiddlewares server (target [stage "a"; stageOf "b" (rejecting "no")] [])
           Recv [VPlayer 1; VNumber 5]).
Proof.
  apply (checkMiddlewares_same_in_both_directions server
           (target [stage "a"; stageOf "b" (rejecting "no")] []) [VPlayer 1; VNumber 5]).
  repeat constructor.
Defined.

(** ** Call adapters *)


(** A sender always returns, without calling anything but the stages:
    it returns arguments and a transform exactly when every stage of the
    chain accepts, and then all the stages were started; with an empty
    chain it returns the arguments it was given and a transform that
    changes nothing. *)
Theorem sender_ok_iff_all_accept
    (rs : RunService) (definition : RemoteDefinitionMembers) (args : list Value) :
  exists out log,
    CreateSender rs definition args = (Some out, log)
    /\ callbackCalls log = []
    /\ (Result.isOk out = true
        <-> is_Some (allAccept definition Send (getPlayerFromArgs rs args)
                       (getMiddlewares definition) (resolveParameters rs args)))
    /\ (Result.isOk out = true -> stagesStarted log = getMiddlewares definition)
    /\ (getMiddlewares definition = [] ->
          exists returnFn, out = Ok (args, returnFn) /\ forall v, returnFn v = v).
Proof.
  unfold CreateSender.
  destruct (0 <? length (getMiddlewares definition))%nat eqn:Hlen.
  - destruct (checkMiddlewares_run rs definition Send args)
      as (state & log & Hrun & _ & Hall & Hcb & Hnone & Hacc).
    rewrite Hrun. unfold bind, ret.
    assert (Hne : getMiddlewares definition <> []).
    { intros Hnil. rewrite Hnil in Hlen. discriminate. }
    destruct (Result state) as [result|] eqn:Hres; [|tauto].
    eexists _, _. split; [reflexivity|]. rewrite app_nil_r.
    split; [exact Hcb|].
    assert (Hf : hasFailed state = Result.isErr result).
    { unfold hasFailed. rewrite Hres. reflexivity. }
    destruct (allAccept definition Send (getPlayerFromArgs rs args)
                (getMiddlewares definition) (resolveParameters rs args))
      as [[fns final]|].
    + destruct Hacc as (Hok & _). rewrite Hok in Hf.
      destruct result as [accepted|reason]; [|discriminate]. simpl.
      split; [split; [eexists; reflexivity | reflexivity]|].
      split; [intros _; apply Hall, Hok | tauto].
    + destruct Hacc as [reason Hreason]. injection Hreason as ->. simpl.
      split; [split; [discriminate | intros [? [=]]]|].
      split; [discriminate | tauto].
  - assert (Hnil : getMiddlewares definition = []).
    { destruct (getMiddlewares definition); [reflexivity | discriminate]. }
    eexists _, _. split; [reflexivity|]. split; [reflexivity|].
    rewrite Hnil. simpl.
    split; [split; [eexists; reflexivity | reflexivity]|].
    split; [reflexivity|].
    intros _. eexists. split; reflexivity.
Qed.


(** * Properties of the builder *)

Section BuilderProperties.

Import NetBuilder.

Lemma entries_applyBindings (bindings : list (string * nat)) (d : Dictionary) (k : string) :
  entries (applyBindings bindings d) !! k
  = match lastBound k bindings with
    | Some v => Some v
    | None => entries d !! k
    end.
Proof.
  revert d. induction bindings as [|[k0 v0] rest IH]; intros d; [reflexivity|].
  unfold applyBindings in *. simpl. rewrite IH. simpl.
  destruct (lastBound k rest); [reflexivity|].
  rewrite lookup_insert. destruct (decide (k0 = k)); reflexivity.
Qed.

Lemma applyBindings_app (bs1 bs2 : list (string * nat)) (d : Dictionary) :
  applyBindings (bs1 ++ bs2) d = applyBindings bs2 (applyBindings bs1 d).
Proof. unfold applyBindings. apply fold_left_app. Qed.

Lemma applyBindings_slots (bindings : list (string * nat)) (d : Dictionary) :
  NamespaceId (applyBindings bindings d) = NamespaceId d
  /\ NamespaceParent (applyBindings bindings d) = NamespaceParent d
  /\ Configuration (applyBindings bindings d) = Configuration d.
Proof.
  revert d. induction bindings as [|[k0 v0] rest IH]; intros d; [repeat split|].
  unfold applyBindings in *. simpl. destruct (IH (setEntry k0 v0 d)) as (H1 & H2 & H3).
  rewrite H1, H2, H3. repeat split.
Qed.

Lemma onDictionary_compose (f g : Dictionary -> Dictionary) (o : Object) :
  onDictionary f (onDictionary g o) = onDictionary (fun d => f (g d)) o.
Proof. destruct o as [[id ns|d] fr]; reflexivity. Qed.

Lemma idOf_insert_definition (h : Heap) (d : nat) (id : string) (ns ns' : option nat)
    (fr fr' : bool) (r : nat) :
  h !! d = Some {| cell := DefinitionCell id ns; frozen := fr |} ->
  idOf (<[d := {| cell := DefinitionCell id ns'; frozen := fr' |}]> h) r = idOf h r.
Proof.
  intros Hd. unfold idOf. destruct (decide (d = r)) as [->|Hne].
  - rewrite list_lookup_insert_eq by (eapply lookup_lt_Some; exact Hd).
    rewrite Hd. reflexivity.
  - rewrite list_lookup_insert_ne by exact Hne. reflexivity.
Qed.

Lemma idOf_insert_dictionary (h : Heap) (s : nat) (d d' : Dictionary) (fr fr' : bool)
    (r : nat) :
  h !! s = Some {| cell := DictionaryCell d; frozen := fr |} ->
  idOf (<[s := {| cell := DictionaryCell d'; frozen := fr' |}]> h) r = idOf h r.
Proof.
  intros Hs. unfold idOf. destruct (decide (s = r)) as [->|Hne].
  - rewrite list_lookup_insert_eq by (eapply lookup_lt_Some; exact Hs).
    rewrite Hs. reflexivity.
  - rewrite list_lookup_insert_ne by exact Hne. reflexivity.
Qed.

Lemma idOf_alter (h : Heap) (dict : nat) (f : Dictionary -> Dictionary) (r : nat) :
  idOf (alter (onDictionary f) dict h) r = idOf h r.
Proof.
  unfold idOf. destruct (decide (dict = r)) as [->|Hne].
  - rewrite list_lookup_alter_eq. destruct (h !! r) as [[[id ns|d] fr]|]; reflexivity.
  - rewrite list_lookup_alter_ne by exact Hne. reflexivity.
Qed.

Lemma omap_pointwise {A B} (f g : A -> option B) (l : list A) :
  (forall x, f x = g x) -> omap f l = omap g l.
Proof.
  intros H. induction l as [|x l IH]; [reflexivity|].
  change (omap f (x :: l)) with (match f x with Some y => y :: omap f l | None => omap f l end).
  change (omap g (x :: l)) with (match g x with Some y => y :: omap g l | None => omap g l end).
  rewrite H, IH. reflexivity.
Qed.

(** What the loop over the definitions has done when it ends without
    an error. *)
Lemma bindDefinitions_returned (dict : nat) (defs : list nat) (h h' : Heap) :
  holdsDictionary h dict ->
  bindDefinitions dict defs h = (Returned tt, h') ->
  length h' = length h
  /\ (forall r, idOf h' r = idOf h r)
  /\ (forall d, d ∈ defs ->
        exists id ns,
          h !! d = Some {| cell := DefinitionCell id ns; frozen := false |}
          /\ h' !! d = Some {| cell := DefinitionCell id (Some dict); frozen := true |})
  /\ NoDup defs
  /\ (forall r, r ∉ defs -> r <> dict -> h' !! r = h !! r)
  /\ h' !! dict
     = onDictionary
         (applyBindings (omap (fun d => id ← idOf h d; Some (id, d)) defs))
       <$> h !! dict.
Proof.
  revert h. induction defs as [|d rest IH]; intros h Hdict Hrun.
  - simpl in Hrun. injection Hrun as <-.
    split; [reflexivity|]. split; [reflexivity|].
    split; [intros d Hd; inversion Hd|]. split; [constructor|].
    split; [reflexivity|].
    simpl. destruct (h !! dict) as [[[id ns|dd] fr]|]; reflexivity.
  - simpl in Hrun.
    destruct (h !! d) as [[[id ns|dd] fr]|] eqn:Hd; simpl in Hrun; try discriminate.
    destruct fr; [discriminate|].
    destruct Hdict as (dd & fr & Hdd).
    assert (Hne : d <> dict) by (intros ->; rewrite Hd in Hdd; discriminate).
    set (h1 := <[d := {| cell := DefinitionCell id (Some dict); frozen := true |}]> h) in *.
    set (h2 := alter (onDictionary (setEntry id d)) dict h1) in *.
    assert (Hlt : d < length h) by (eapply lookup_lt_Some; exact Hd).
    assert (Hh2d : h2 !! d = Some {| cell := DefinitionCell id (Some dict); frozen := true |}).
    { unfold h2. rewrite list_lookup_alter_ne by congruence.
      unfold h1. apply list_lookup_insert_eq, Hlt. }
    assert (Hh2dict : h2 !! dict
                      = Some {| cell := DictionaryCell (setEntry id d dd); frozen := fr |}).
    { unfold h2. rewrite list_lookup_alter_eq. unfold h1.
      rewrite list_lookup_insert_ne by exact Hne. rewrite Hdd. reflexivity. }
    assert (Hother : forall r, r <> d -> r <> dict -> h2 !! r = h !! r).
    { intros r H1 H2. unfold h2. rewrite list_lookup_alter_ne by congruence.
      unfold h1. apply list_lookup_insert_ne. congruence. }
    assert (Hid : forall r, idOf h2 r = idOf h r).
    { intros r. unfold h2. rewrite idOf_alter. unfold h1.
      eapply idOf_insert_definition. exact Hd. }
    destruct (IH h2) as (Hlen & Hids & Hdefs & Hnodup & Hkeep & Hentries);
      [eexists _, _; exact Hh2dict | exact Hrun |].
    assert (Hnotin : d ∉ rest).
    { intros Hin. destruct (Hdefs d Hin) as (id' & ns' & Hbefore & _).
      rewrite Hh2d in Hbefore. discriminate. }
    split.
    { rewrite Hlen. unfold h2, h1. rewrite length_alter, length_insert. reflexivity. }
    split; [intros r; rewrite Hids; apply Hid|].
    split.
    { intros d' Hin. apply elem_of_cons in Hin. destruct Hin as [->|Hin].
      - exists id, ns. split; [exact Hd|].
        rewrite (Hkeep d Hnotin Hne). exact Hh2d.
      - destruct (Hdefs d' Hin) as (id' & ns' & Hbefore & Hafter).
        exists id', ns'. split; [|exact Hafter].
        assert (d' <> d) by (intros ->; rewrite Hh2d in Hbefore; discriminate).
        assert (d' <> dict) by (intros ->; rewrite Hh2dict in Hbefore; discriminate).
        rewrite <- Hother by assumption. exact Hbefore. }
    split; [constructor; assumption|].
    split.
    { intros r Hr Hrd. apply not_elem_of_cons in Hr. destruct Hr as [Hr1 Hr2].
      rewrite (Hkeep r Hr2 Hrd). apply Hother; assumption. }
    rewrite Hentries, Hh2dict, Hdd. simpl.
    unfold idOf at 2. rewrite Hd. simpl.
    rewrite (omap_pointwise _ (fun d0 => id0 ← idOf h d0; Some (id0, d0)))
      by (intros x; rewrite Hid; reflexivity).
    reflexivity.
Qed.

(** What the loop over the bound namespaces has done when it ends
    without an error. *)
Lemma bindNamespaces_returned (dict : nat) (config : gmap string Value)
    (spaces : list (string * nat)) (h h' : Heap) :
  holdsDictionary h dict ->
  Forall (fun p => p.2 <> dict) spaces ->
  bindNamespaces dict config spaces h = (Returned tt, h') ->
  length h' = length h
  /\ (forall r, idOf h' r = idOf h r)
  /\ (forall name space, (name, space) ∈ spaces ->
        exists d,
          h !! space = Some {| cell := DictionaryCell d; frozen := false |}
          /\ h' !! space
             = Some {| cell := DictionaryCell (adopt name dict config d); frozen := true |})
  /\ NoDup spaces.*2
  /\ (forall r, r ∉ spaces.*2 -> r <> dict -> h' !! r = h !! r)
  /\ h' !! dict = onDictionary (applyBindings spaces) <$> h !! dict.
Proof.
  revert h. induction spaces as [|[name space] rest IH]; intros h Hdict Hfresh Hrun.
  - simpl in Hrun. injection Hrun as <-.
    split; [reflexivity|]. split; [reflexivity|].
    split; [intros name space Hin; inversion Hin|]. split; [constructor|].
    split; [reflexivity|].
    simpl. destruct (h !! dict) as [[[id ns|dd] fr]|]; reflexivity.
  - simpl in Hrun.
    destruct (h !! space) as [[[id ns|d] fr]|] eqn:Hs; simpl in Hrun; try discriminate.
    destruct fr; [discriminate|].
    inversion Hfresh as [|? ? Hne Hfresh']; subst. simpl in Hne.
    destruct Hdict as (dd & fr & Hdd).
    set (h1 := <[space := {| cell := DictionaryCell (adopt name dict config d);
                             frozen := true |}]> h) in *.
    set (h2 := alter (onDictionary (setEntry name space)) dict h1) in *.
    assert (Hlt : space < length h) by (eapply lookup_lt_Some; exact Hs).
    assert (Hh2s : h2 !! space
                   = Some {| cell := DictionaryCell (adopt name dict config d);
                             frozen := true |}).
    { unfold h2. rewrite list_lookup_alter_ne by congruence.
      unfold h1. apply list_lookup_insert_eq, Hlt. }
    assert (Hh2dict : h2 !! dict
                      = Some {| cell := DictionaryCell (setEntry name space dd);
                                frozen := fr |}).
    { unfold h2. rewrite list_lookup_alter_eq. unfold h1.
      rewrite list_lookup_insert_ne by exact Hne. rewrite Hdd. reflexivity. }
    assert (Hother : forall r, r <> space -> r <> dict -> h2 !! r = h !! r).
    { intros r H1 H2. unfold h2. rewrite list_lookup_alter_ne by congruence.
      unfold h1. apply list_lookup_insert_ne. congruence. }
    assert (Hid : forall r, idOf h2 r = idOf h r).
    { intros r. unfold h2. rewrite idOf_alter. unfold h1.
      eapply idOf_insert_dictionary. exact Hs. }
    destruct (IH h2) as (Hlen & Hids & Hsp & Hnodup & Hkeep & Hentries);
      [eexists _, _; exact Hh2dict | exact Hfresh' | exact Hrun |].
    assert (Hnotin : space ∉ rest.*2).
    { intros Hin. apply list_elem_of_fmap in Hin. destruct Hin as ([n' s'] & Heq & Hin).
      simpl in Heq. subst s'.
      destruct (Hsp n' space Hin) as (d' & Hbefore & _).
      rewrite Hh2s in Hbefore. discriminate. }
    split.
    { rewrite Hlen. unfold h2, h1. rewrite length_alter, length_insert. reflexivity. }
    split; [intros r; rewrite Hids; apply Hid|].
    split.
    { intros name' space' Hin. apply elem_of_cons in Hin. destruct Hin as [Heq|Hin].
      - injection Heq as -> ->. exists d. split; [exact Hs|].
        rewrite (Hkeep space Hnotin Hne). exact Hh2s.
      - destruct (Hsp name' space' Hin) as (d' & Hbefore & Hafter).
        exists d'. split; [|exact Hafter].
        assert (space' <> space) by (intros ->; rewrite Hh2s in Hbefore; discriminate).
        assert (space' <> dict).
        { rewrite Forall_forall in Hfresh'. exact (Hfresh' _ Hin). }
        rewrite <- Hother by assumption. exact Hbefore. }
    split; [simpl; constructor; assumption|].
    split.
    { intros r Hr Hrd. simpl in Hr. apply not_elem_of_cons in Hr. destruct Hr as [Hr1 Hr2].
      rewrite (Hkeep r Hr2 Hrd). apply Hother; assumption. }
    rewrite Hentries, Hh2dict, Hdd. reflexivity.
Qed.

Lemma checkGlobal_returned (middlewares : list Middleware) :
  checkGlobal middlewares = Returned tt
  <-> Forall (fun m => GlobalEnabled m = true) middlewares.
Proof.
  induction middlewares as [|m rest IH]; simpl.
  - split; [constructor | reflexivity].
  - destruct (GlobalEnabled m) eqn:E.
    + rewrite IH. split; [constructor; assumption | intros H; inversion H; assumption].
    + split; [discriminate | intros H; inversion H; congruence].
Qed.

Lemma checkGlobal_raised (pre post : list Middleware) (m : Middleware) :
  Forall (fun m => GlobalEnabled m = true) pre ->
  GlobalEnabled m = false ->
  checkGlobal (pre ++ m :: post) = Raised (notGloballyEnabled (Id m)).
Proof.
  intros Hpre Hm. induction Hpre as [|x pre Hx Hpre IH]; simpl.
  - rewrite Hm. reflexivity.
  - rewrite Hx. exact IH.
Qed.

(** What a build that returns has done, for a builder whose bound
    namespaces are in the store. *)
Lemma build_returned (b : Builder) (h h' : Heap) (dict : nat) :
  Forall (fun p => p.2 < length h) (namespaces b) ->
  _build b h = (Returned dict, h') ->
  dict = length h
  /\ Forall (fun m => GlobalEnabled m = true) (middlewareList b)
  /\ NoDup (definitions b)
  /\ NoDup (namespaces b).*2
  /\ (forall d, d ∈ definitions b ->
        exists id ns,
          h !! d = Some {| cell := DefinitionCell id ns; frozen := false |}
          /\ h' !! d = Some {| cell := DefinitionCell id (Some dict); frozen := true |})
  /\ (forall name space, (name, space) ∈ namespaces b ->
        exists d,
          h !! space = Some {| cell := DictionaryCell d; frozen := false |}
          /\ h' !! space
             = Some {| cell := DictionaryCell (adopt name dict (configuration b) d);
                       frozen := true |})
  /\ h' !! dict
     = Some {| cell := DictionaryCell
                         (describe b (applyBindings (bindingsOf b h) emptyDictionary));
               frozen := false |}
  /\ (forall r, r < length h -> r ∉ definitions b -> r ∉ (namespaces b).*2 ->
        h' !! r = h !! r).
Proof.
  intros Hexist Hrun. unfold _build in Hrun.
  destruct (checkGlobal (middlewareList b)) as [[]|message] eqn:Hcheck;
    [|discriminate].
  set (h0 := h ++ [{| cell := DictionaryCell emptyDictionary; frozen := false |}]) in *.
  assert (Hh0 : h0 !! length h
                = Some {| cell := DictionaryCell emptyDictionary; frozen := false |}).
  { unfold h0. apply list_lookup_middle. reflexivity. }
  assert (Hh0l : forall r, r < length h -> h0 !! r = h !! r).
  { intros r Hr. unfold h0. apply lookup_app_l, Hr. }
  destruct (bindDefinitions (length h) (definitions b) h0) as [[[]|message] h1] eqn:Hdefs;
    [|discriminate].
  destruct (bindDefinitions_returned _ _ _ _ (ex_intro _ _ (ex_intro _ _ Hh0)) Hdefs)
    as (Hlen1 & Hid1 & Hd1 & Hnodup1 & Hkeep1 & Hdict1).
  rewrite Hh0 in Hdict1. simpl in Hdict1.
  assert (Hfresh : Forall (fun p => p.2 <> length h) (namespaces b)).
  { eapply Forall_impl; [exact Hexist|]. intros p Hp. simpl in *. lia. }
  destruct (bindNamespaces (length h) (configuration b) (namespaces b) h1)
    as [[[]|message] h2] eqn:Hsp; [|discriminate].
  destruct (bindNamespaces_returned _ _ _ _ _ (ex_intro _ _ (ex_intro _ _ Hdict1))
              Hfresh Hsp)
    as (Hlen2 & Hid2 & Hs2 & Hnodup2 & Hkeep2 & Hdict2).
  rewrite Hdict1 in Hdict2. simpl in Hdict2.
  injection Hrun as <- <-.
  assert (Hdefcell : forall d, d ∈ definitions b -> d < length h /\ d ∉ (namespaces b).*2).
  { intros d Hin. destruct (Hd1 d Hin) as (id & ns & Hbefore & Hafter). split.
    - assert (d <> length h) by (intros ->; rewrite Hh0 in Hbefore; discriminate).
      apply lookup_lt_Some in Hbefore. unfold h0 in Hbefore.
      rewrite length_app in Hbefore. simpl in Hbefore. lia.
    - intros Hin2. apply list_elem_of_fmap in Hin2.
      destruct Hin2 as ([n s] & Heq & Hin2). simpl in Heq. subst s.
      destruct (Hs2 n d Hin2) as (dd & Hb & _). rewrite Hafter in Hb. discriminate. }
  split; [reflexivity|].
  split; [apply checkGlobal_returned, Hcheck|].
  split; [exact Hnodup1|]. split; [exact Hnodup2|].
  split.
  { intros d Hin. destruct (Hd1 d Hin) as (id & ns & Hbefore & Hafter).
    destruct (Hdefcell d Hin) as [Hlt Hnot].
    exists id, ns. split; [rewrite <- Hh0l by exact Hlt; exact Hbefore|].
    rewrite list_lookup_alter_ne by lia.
    rewrite (Hkeep2 d Hnot) by lia. exact Hafter. }
  split.
  { intros name space Hin. destruct (Hs2 name space Hin) as (d & Hbefore & Hafter).
    assert (Hlt : space < length h).
    { rewrite Forall_forall in Hexist. exact (Hexist _ Hin). }
    assert (Hnotdef : space ∉ definitions b).
    { intros Hin2. destruct (Hd1 space Hin2) as (id & ns & _ & Hafter1).
      rewrite Hafter1 in Hbefore. discriminate. }
    exists d. split.
    - rewrite <- Hh0l by exact Hlt. rewrite <- (Hkeep1 space Hnotdef) by lia. exact Hbefore.
    - rewrite list_lookup_alter_ne by lia. exact Hafter. }
  split.
  { rewrite list_lookup_alter_eq, Hdict2. simpl. unfold bindingsOf.
    rewrite applyBindings_app.
    rewrite (list_omap_ext _ (fun d0 => id0 ← idOf h d0; Some (id0, d0))
               (definitions b) (definitions b)); [reflexivity|].
    apply Forall_Forall2_diag, Forall_forall. intros d Hin.
    destruct (Hdefcell d Hin) as [Hlt _].
    unfold idOf. rewrite Hh0l by exact Hlt. reflexivity. }
  intros r Hlt Hnd Hns.
  rewrite list_lookup_alter_ne by lia.
  rewrite (Hkeep2 r Hns) by lia. rewrite (Hkeep1 r Hnd) by lia. apply Hh0l, Hlt.
Qed.

(** A build fails at the first global middleware that is not globally
    enabled, with the message that names it, and before it has touched
    any table of the store. *)
Theorem build_rejects_middleware_not_globally_enabled
    (b : Builder) (h : Heap) (pre post : list Middleware) (m : Middleware) :
  middlewareList b = pre ++ m :: post ->
  Forall (fun m => GlobalEnabled m = true) pre ->
  GlobalEnabled m = false ->
  fst (_build b h)
  = Raised ("[netbuilder] The middleware " +:+ quote +:+ Id m +:+ quote
            +:+ " is not globally enabled.")
  /\ forall r, r < length h -> snd (_build b h) !! r = h !! r.
Proof.
  intros Hlist Hpre Hm. unfold _build.
  rewrite Hlist, (checkGlobal_raised _ _ _ Hpre Hm). simpl.
  split; [reflexivity|]. intros r Hr. apply lookup_app_l, Hr.
Qed.

Lemma build_rejects_middleware_not_globally_enabled_witness :
  fst (_build (UseGlobalMiddleware [sampleMiddleware "Logger" true;
                                    sampleMiddleware "Limiter" false] sampleBuilder)
         sampleHeap)
  = Raised (notGloballyEnabled "Limiter").
Proof.
  apply (build_rejects_middleware_not_globally_enabled
           (UseGlobalMiddleware [sampleMiddleware "Logger" true;
                                 sampleMiddleware "Limiter" false] sampleBuilder)
           sampleHeap [sampleMiddleware "Logger" true] [] (sampleMiddleware "Limiter" false)
           eq_refl).
  - repeat constructor.
  - reflexivity.
Defined.

(** A build that returns has made a new dictionary whose global
    middleware list is the builder's, all of it globally enabled, and
    whose configuration is the builder's; every bound definition is
    frozen with that dictionary as its namespace; tables that were not
    bound are as they were. *)
Theorem build_links_definitions_to_namespace
    (b : Builder) (h h' : Heap) (dict : nat) :
  Forall (fun p => p.2 < length h) (namespaces b) ->
  _build b h = (Returned dict, h') ->
  dict = length h
  /\ Forall (fun m => GlobalEnabled m = true) (middlewareList b)
  /\ (exists d,
        h' !! dict = Some {| cell := DictionaryCell d; frozen := false |}
        /\ GlobalMiddleware d = Some (middlewareList b)
        /\ Configuration d = Some (configuration b))
  /\ (forall d, d ∈ definitions b ->
        exists id, idOf h d = Some id
                   /\ h' !! d = Some {| cell := DefinitionCell id (Some dict);
                                        frozen := true |})
  /\ (forall r, r < length h -> r ∉ definitions b -> r ∉ (namespaces b).*2 ->
        h' !! r = h !! r).
Proof.
  intros Hexist Hrun.
  destruct (build_returned b h h' dict Hexist Hrun)
    as (Hdict & Hglobal & _ & _ & Hdefs & _ & Hcell & Hkeep).
  split; [exact Hdict|]. split; [exact Hglobal|].
  split; [eexists; split; [exact Hcell | split; reflexivity]|].
  split; [|exact Hkeep].
  intros d Hin. destruct (Hdefs d Hin) as (id & ns & Hbefore & Hafter).
  exists id. split; [unfold idOf; rewrite Hbefore; reflexivity | exact Hafter].
Qed.

Lemma build_links_definitions_to_namespace_witness :
  snd (_build sampleBuilder sampleHeap) !! 1
  = Some {| cell := DefinitionCell "Pong" (Some 3); frozen := true |}.
Proof.
  destruct (build_links_definitions_to_namespace sampleBuilder sampleHeap
              (snd (_build sampleBuilder sampleHeap)) 3)
    as (_ & _ & _ & Hdefs & _).
  - repeat constructor.
  - reflexivity.
  - destruct (Hdefs 1) as (id & Hid & Hcell).
    + set_solver.
    + injection Hid as <-. exact Hcell.
Defined.

(** A build returns only for definitions and namespaces that are bound
    once and were not frozen: the same table bound twice, or a table
    that an earlier build has frozen, ends the build with an error. *)
Theorem build_needs_tables_bound_once
    (b : Builder) (h h' : Heap) (dict : nat) :
  Forall (fun p => p.2 < length h) (namespaces b) ->
  _build b h = (Returned dict, h') ->
  NoDup (definitions b)
  /\ NoDup (namespaces b).*2
  /\ (forall d, d ∈ definitions b ->
        exists o, h !! d = Some o /\ frozen o = false)
  /\ (forall name space, (name, space) ∈ namespaces b ->
        exists o, h !! space = Some o /\ frozen o = false).
Proof.
  intros Hexist Hrun.
  destruct (build_returned b h h' dict Hexist Hrun)
    as (_ & _ & Hnd1 & Hnd2 & Hdefs & Hspaces & _ & _).
  split; [exact Hnd1|]. split; [exact Hnd2|]. split.
  - intros d Hin. destruct (Hdefs d Hin) as (id & ns & Hbefore & _).
    eexists. split; [exact Hbefore | reflexivity].
  - intros name space Hin. destruct (Hspaces name space Hin) as (d & Hbefore & _).
    eexists. split; [exact Hbefore | reflexivity].
Qed.

Lemma build_needs_tables_bound_once_witness :
  NoDup (definitions sampleBuilder).
Proof.
  apply (build_needs_tables_bound_once sampleBuilder sampleHeap
           (snd (_build sampleBuilder sampleHeap)) 3).
  - repeat constructor.
  - reflexivity.
Defined.

(** The same definition bound twice makes the build fail. *)
Example build_fails_on_definition_bound_twice :
  fst (_build (BindDefinition 0 (BindDefinition 0 (create ∅))) sampleHeap)
  = Raised readonlyError.
Proof. reflexivity. Qed.

(** Once a build has returned, no builder whose first definition is one
    of the definitions it bound can be built: the definition is frozen,
    and the write of its namespace raises.  In particular the builder
    itself cannot be built a second time. *)
Theorem definition_builds_once
    (b b2 : Builder) (h h' : Heap) (dict d : nat) (rest : list nat) :
  Forall (fun p => p.2 < length h) (namespaces b) ->
  _build b h = (Returned dict, h') ->
  d ∈ definitions b ->
  definitions b2 = d :: rest ->
  Forall (fun m => GlobalEnabled m = true) (middlewareList b2) ->
  fst (_build b2 h') = Raised readonlyError.
Proof.
  intros Hexist Hrun Hin Hdefs2 Hglobal.
  destruct (build_returned b h h' dict Hexist Hrun)
    as (_ & _ & _ & _ & Hdefs & _ & _ & _).
  destruct (Hdefs d Hin) as (id & ns & _ & Hafter).
  unfold _build. apply checkGlobal_returned in Hglobal. rewrite Hglobal, Hdefs2.
  simpl. rewrite lookup_app_l by (eapply lookup_lt_Some; exact Hafter).
  rewrite Hafter. reflexivity.
Qed.

Lemma definition_builds_once_witness :
  fst (_build sampleBuilder (snd (_build sampleBuilder sampleHeap))) = Raised readonlyError.
Proof.
  apply (definition_builds_once sampleBuilder sampleBuilder sampleHeap
           (snd (_build sampleBuilder sampleHeap)) 3 0 [1]).
  - repeat constructor.
  - reflexivity.
  - set_solver.
  - reflexivity.
  - constructor.
Defined.

(** In the dictionary a build returns, a name stands for the last
    table bound under it, and a namespace bound under the id of a
    definition takes its place: the definitions are entered first, in
    the order they were bound, then the namespaces. *)
Theorem built_dictionary_lookup
    (b : Builder) (h h' : Heap) (dict : nat) :
  Forall (fun p => p.2 < length h) (namespaces b) ->
  _build b h = (Returned dict, h') ->
  exists d,
    h' !! dict = Some {| cell := DictionaryCell d; frozen := false |}
    /\ forall key, entries d !! key = lastBound key (bindingsOf b h).
Proof.
  intros Hexist Hrun.
  destruct (build_returned b h h' dict Hexist Hrun)
    as (_ & _ & _ & _ & _ & _ & Hcell & _).
  eexists. split; [exact Hcell|].
  intros key. cbn [describe entries]. rewrite entries_applyBindings.
  destruct (lastBound key (bindingsOf b h)); reflexivity.
Qed.

Lemma built_dictionary_lookup_witness :
  exists d,
    snd (_build sampleBuilder sampleHeap) !! 3
    = Some {| cell := DictionaryCell d; frozen := false |}
    /\ forall key, entries d !! key = lastBound key (bindingsOf sampleBuilder sampleHeap).
Proof.
  apply (built_dictionary_lookup sampleBuilder sampleHeap
           (snd (_build sampleBuilder sampleHeap)) 3).
  - repeat constructor.
  - reflexivity.
Defined.

(** A namespace bound under the id of a definition hides it. *)
Example namespace_hides_definition :
  lastBound "Ping" (bindingsOf (BindNamespace "Ping" 2 sampleBuilder) sampleHeap) = Some 2
  /\ lastBound "Pong" (bindingsOf (BindNamespace "Ping" 2 sampleBuilder) sampleHeap) = Some 1
  /\ lastBound "Pang" (bindingsOf (BindNamespace "Ping" 2 sampleBuilder) sampleHeap) = None.
Proof. repeat split. Qed.

(** A bound namespace comes out of the build frozen, named, with the
    new dictionary as its parent and its entries as they were; for each
    key its configuration gives its own setting if it had one, and the
    setting of the builder otherwise. *)
Theorem bound_namespace_inherits_configuration
    (b : Builder) (h h' : Heap) (dict : nat) (name : string) (space : nat) :
  Forall (fun p => p.2 < length h) (namespaces b) ->
  _build b h = (Returned dict, h') ->
  (name, space) ∈ namespaces b ->
  exists d d',
    h !! space = Some {| cell := DictionaryCell d; frozen := false |}
    /\ h' !! space = Some {| cell := DictionaryCell d'; frozen := true |}
    /\ NamespaceId d' = Some name
    /\ NamespaceParent d' = Some dict
    /\ entries d' = entries d
    /\ exists config',
         Configuration d' = Some config'
         /\ forall key,
              config' !! key
              = match Configuration d ≫= (fun own => own !! key) with
                | Some v => Some v
                | None => configuration b !! key
                end.
Proof.
  intros Hexist Hrun Hin.
  destruct (build_returned b h h' dict Hexist Hrun)
    as (_ & _ & _ & _ & _ & Hspaces & _ & _).
  destruct (Hspaces name space Hin) as (d & Hbefore & Hafter).
  exists d, (adopt name dict (configuration b) d).
  split; [exact Hbefore|]. split; [exact Hafter|].
  split; [reflexivity|]. split; [reflexivity|]. split; [reflexivity|].
  unfold adopt. cbn [Configuration].
  destruct (Configuration d) as [own|]; eexists; (split; [reflexivity|]); intros key; simpl.
  - rewrite lookup_union. destruct (own !! key), (configuration b !! key); reflexivity.
  - reflexivity.
Qed.

Lemma bound_namespace_inherits_configuration_witness :
  exists d d',
    sampleHeap !! 2 = Some {| cell := DictionaryCell d; frozen := false |}
    /\ snd (_build sampleBuilder sampleHeap) !! 2
       = Some {| cell := DictionaryCell d'; frozen := true |}
    /\ NamespaceId d' = Some "Child"
    /\ NamespaceParent d' = Some 3
    /\ entries d' = entries d
    /\ exists config',
         Configuration d' = Some config'
         /\ forall key,
              config' !! key
              = match Configuration d ≫= (fun own => own !! key) with
                | Some v => Some v
                | None => configuration sampleBuilder !! key
                end.
Proof.
  apply (bound_namespace_inherits_configuration sampleBuilder sampleHeap
           (snd (_build sampleBuilder sampleHeap)) 3 "Child" 2).
  - repeat constructor.
  - reflexivity.
  - set_solver.
Defined.

(** ** Serialization registry *)

Lemma setPositions_other (i : nat) (objs : list nat) (m : gmap nat nat) (k : nat) :
  k ∉ objs -> setPositions i objs m !! k = m !! k.
Proof.
  revert i m. induction objs as [|obj rest IH]; intros i m Hk; [reflexivity|].
  apply not_elem_of_cons in Hk. destruct Hk as [Hne Hrest]. simpl.
  rewrite IH by exact Hrest. apply lookup_insert_ne. congruence.
Qed.

Lemma setPositions_last (i : nat) (objs : list nat) (m : gmap nat nat) (j obj : nat) :
  objs !! j = Some obj ->
  (forall j', j < j' -> objs !! j' <> Some obj) ->
  setPositions i objs m !! obj = Some (i + j).
Proof.
  revert i m j. induction objs as [|x rest IH]; intros i m j Hj Hlast; [discriminate|].
  destruct j as [|j]; simpl in *.
  - injection Hj as ->. rewrite setPositions_other.
    + rewrite lookup_insert_eq. f_equal. lia.
    + intros Hin. apply list_elem_of_lookup in Hin. destruct Hin as [j' Hj'].
      exact (Hlast (S j') ltac:(lia) Hj').
  - rewrite (IH (S i) _ j Hj).
    + f_equal. lia.
    + intros j' Hlt. exact (Hlast (S j') ltac:(lia)).
Qed.

Lemma setClasses_other (Class : nat -> nat) (i : nat) (objs : list nat)
    (m : gmap nat (nat * nat)) (k : nat) :
  Forall (fun obj => Class obj <> k) objs -> setClasses Class i objs m !! k = m !! k.
Proof.
  revert i m. induction objs as [|obj rest IH]; intros i m Hk; [reflexivity|].
  inversion Hk as [|? ? Hne Hrest]; subst. simpl.
  rewrite IH by exact Hrest. apply lookup_insert_ne. exact Hne.
Qed.

Lemma setClasses_last (Class : nat -> nat) (i : nat) (objs : list nat)
    (m : gmap nat (nat * nat)) (j obj : nat) :
  objs !! j = Some obj ->
  (forall j' obj', j < j' -> objs !! j' = Some obj' -> Class obj' <> Class obj) ->
  setClasses Class i objs m !! Class obj = Some (obj, i + j).
Proof.
  revert i m j. induction objs as [|x rest IH]; intros i m j Hj Hlast; [discriminate|].
  destruct j as [|j]; simpl in *.
  - injection Hj as ->. rewrite setClasses_other.
    + rewrite lookup_insert_eq. do 2 f_equal. lia.
    + apply Forall_forall. intros obj' Hin.
      apply list_elem_of_lookup in Hin. destruct Hin as [j' Hj'].
      exact (Hlast (S j') obj' ltac:(lia) Hj').
  - rewrite (IH (S i) _ j Hj).
    + do 2 f_equal. lia.
    + intros j' obj' Hlt. exact (Hlast (S j') obj' ltac:(lia)).
Qed.

(** After [UseSerialization], the class of a serializer is registered
    with that serializer and its position in the list of serializers,
    counted from 1, provided no serializer listed after it handles the
    same class (the last one wins); the serializer itself is registered
    under the same position.  A plain class is registered under its
    position in the list of plain classes. *)
Theorem serializers_registered_under_their_position
    (IsSerializer : nat -> bool) (Class : nat -> nat) (classes : list nat) (b : Builder) :
  let b' := UseSerialization IsSerializer Class classes b in
  (forall j obj,
      serializers b' !! j = Some obj ->
      (forall j' obj', j < j' -> serializers b' !! j' = Some obj' ->
                       Class obj' <> Class obj) ->
      SerializerClasses (serializationMap b') !! Class obj = Some (obj, S j)
      /\ Serializers (serializationMap b') !! obj = Some (S j)
      /\ IsSerializer obj = true /\ obj ∈ classes)
  /\ (forall j obj,
        serializableClasses b' !! j = Some obj ->
        (forall j', j < j' -> serializableClasses b' !! j' <> Some obj) ->
        Serializables (serializationMap b') !! obj = Some (S j)
        /\ IsSerializer obj = false /\ obj ∈ classes).
Proof.
  intros b'. split.
  - intros j obj Hj Hlast. cbn [b' UseSerialization serializers serializationMap
                                 SerializerClasses Serializers] in *.
    split; [apply (setClasses_last Class 1 _ _ j obj Hj Hlast)|].
    split.
    + apply (setPositions_last 1 _ _ j obj Hj).
      intros j' Hlt Hj'. exact (Hlast j' obj Hlt Hj' eq_refl).
    + assert (Hin : obj ∈ filter (fun v => IsSerializer v = true) classes)
        by (apply list_elem_of_lookup; eexists; exact Hj).
      apply list_elem_of_filter in Hin. exact Hin.
  - intros j obj Hj Hlast. cbn [b' UseSerialization serializableClasses serializationMap
                                 Serializables] in *.
    split; [apply (setPositions_last 1 _ _ j obj Hj Hlast)|].
    assert (Hin : obj ∈ filter (fun v => IsSerializer v = false) classes)
      by (apply list_elem_of_lookup; eexists; exact Hj).
    apply list_elem_of_filter in Hin. exact Hin.
Qed.

Lemma serializers_registered_under_their_position_witness :
  SerializerClasses
    (serializationMap
       (UseSerialization (fun v => (10 <=? v)%nat) (fun v => v - 10)
          [3; 12; 4; 15] (create ∅))) !! 5
  = Some (15, 2).
Proof.
  destruct (serializers_registered_under_their_position
              (fun v => (10 <=? v)%nat) (fun v => v - 10) [3; 12; 4; 15] (create ∅))
    as [Hcustom _].
  destruct (Hcustom 1 15 eq_refl) as [H _].
  - intros [|[|[|j']]] obj' Hlt Hj'; try lia; discriminate.
  - exact H.
Defined.

(** Two serializers for one class: the class is registered with the
    later one, so the earlier one would write the id of the later. *)
Example later_serializer_takes_the_class :
  SerializerClasses
    (serializationMap
       (UseSerialization (fun _ => true) (fun _ => 7) [20; 21] (create ∅))) !! 7
  = Some (21, 2).
Proof. reflexivity. Qed.

(** From the builder to the wire: in a namespace built after
    [UseSerialization], the [Serialization] method of a serializer made
    for the class of the [j]-th serializer, counted from 0, writes the
    id [j + 1] and the value its [Serialize] method gives, provided no
    serializer listed after it handles the same class. *)
Theorem serialization_writes_position_of_serializer
    (IsSerializer : nat -> bool) (Class : nat -> nat) (classes : list nat)
    (b : Builder) (h h' : Heap) (dict j obj : nat)
    (Serialize : Value -> Value) (value : Value) :
  let b' := UseSerialization IsSerializer Class classes b in
  Forall (fun p => p.2 < length h) (namespaces b') ->
  _build b' h = (Returned dict, h') ->
  serializers b' !! j = Some obj ->
  (forall j' obj', j < j' -> serializers b' !! j' = Some obj' -> Class obj' <> Class obj) ->
  Serialization (Class obj) Serialize h' dict value
  = Returned {| SerializationKind := Custom; SerializationId := S j;
                SerializedValue := Serialize value |}.
Proof.
  intros b' Hexist Hrun Hj Hlast.
  destruct (build_returned b' h h' dict Hexist Hrun)
    as (_ & _ & _ & _ & _ & _ & Hcell & _).
  unfold Serialization. rewrite Hcell.
  cbn [cell describe SerializationMap b' UseSerialization serializationMap
       SerializerClasses].
  cbn [b' UseSerialization serializers] in Hj, Hlast.
  rewrite (setClasses_last Class 1 _ _ j obj Hj Hlast). reflexivity.
Qed.

Lemma serialization_writes_position_of_serializer_witness :
  Serialization 5 plusOne
    (snd (_build (UseSerialization (fun v => (10 <=? v)%nat) (fun v => v - 10)
                    [3; 12; 4; 15] sampleBuilder) sampleHeap))
    3 (VNumber 1)
  = Returned {| SerializationKind := Custom; SerializationId := 2;
                SerializedValue := VNumber 2 |}.
Proof.
  apply (serialization_writes_position_of_serializer
           (fun v => (10 <=? v)%nat) (fun v => v - 10) [3; 12; 4; 15]
           sampleBuilder sampleHeap
           (snd (_build (UseSerialization (fun v => (10 <=? v)%nat) (fun v => v - 10)
                           [3; 12; 4; 15] sampleBuilder) sampleHeap))
           3 1 15 plusOne (VNumber 1)).
  - repeat constructor.
  - reflexivity.
  - reflexivity.
  - intros [|[|[|j']]] obj' Hlt Hj'; try lia; discriminate.
Defined.

(** A serializer whose class the namespace does not know cannot
    serialize: the lookup of its id raises. *)
Example serialization_of_unregistered_class_raises :
  Serialization 5 plusOne (snd (_build sampleBuilder sampleHeap)) 3 (VNumber 1)
  = Raised indexNilError.
Proof. reflexivity. Qed.

End BuilderProperties.
